(** * survey_eval: the evaluation harness and the questionnaire scorer

    A shallow embedding of [eval_harness.py], [questionnaire_scorer.py] and
    the legacy [questionnaire_scrorer.py], with the properties of the
    metrics calculator, the eval runner, the threshold gate and the CSV
    post-processing.

    Conventions of the embedding:
    - Python [float] results are exact rationals ([Q]), the thresholds the
      decimals the source writes; the integer scores are [Z].  A quotient
      or a mean is the exact one, where the float of the code is the
      nearest [float64]: a comparison of the model can differ from the
      code's for a value that lies on its threshold or one rounding away
      from it.
    - Python [str] is [string], read as ASCII text: [strip] removes the
      ASCII white space of [str.isspace], [lower] maps [A-Z] to [a-z].
    - A [dict] with a fixed set of keys is a record, a [dict] used as a
      map is a [gmap], a [set] is a [gset].
    - A value that may be [None] is an [option].
    - A raised exception is the [Raises] outcome of the [outcome] monad. *)

From Stdlib Require Import ZArith QArith String Ascii List Lia Bool.
From stdpp Require Import base option list gmap sets strings.

Local Open Scope string_scope.
Local Open Scope Z_scope.
Local Open Scope list_scope.

(** [H : x ∈ [a; b; ...]] where [x] is none of the listed values. *)
Ltac not_in_events H :=
  repeat (apply elem_of_cons in H as [H|H]; [discriminate H|]);
  inversion H.

(** ** Exceptions and outcomes *)

Inductive exn : Type :=
| KeyError (key : string)
| ValueError (msg : string)
| TypeError (msg : string)
| ZeroDivisionError
| CsvError (msg : string)
| CollaboratorError (msg : string).

(** [str(e)]: a [KeyError] prints the [repr] of its key. *)
Definition exn_str (e : exn) : string :=
  match e with
  | KeyError key => "'" +:+ key +:+ "'"
  | ValueError msg => msg
  | TypeError msg => msg
  | ZeroDivisionError => "division by zero"
  | CsvError msg => msg
  | CollaboratorError msg => msg
  end.

Inductive outcome (A : Type) : Type :=
| Returns (a : A)
| Raises (e : exn).
Arguments Returns {A} a.
Arguments Raises {A} e.

Definition obind {A B} (c : outcome A) (k : A -> outcome B) : outcome B :=
  match c with
  | Returns a => k a
  | Raises e => Raises e
  end.

Notation "x <~ c ;; k" := (obind c (fun x => k))
  (at level 100, c at next level, right associativity).

(** [d[key]] on a key that may be absent. *)
Definition subscript {A} (key : string) (o : option A) : outcome A :=
  match o with
  | Some a => Returns a
  | None => Raises (KeyError key)
  end.

(** ** Python strings *)

Module PyStr.

Definition isspace (c : ascii) : bool :=
  let n := nat_of_ascii c in
  ((9 <=? n) && (n <=? 13) || (28 <=? n) && (n <=? 32))%nat.

Fixpoint lstrip (s : string) : string :=
  match s with
  | String c r => if isspace c then lstrip r else s
  | EmptyString => EmptyString
  end.

Fixpoint rstrip (s : string) : string :=
  match s with
  | String c r =>
      match rstrip r with
      | EmptyString => if isspace c then EmptyString else String c EmptyString
      | r' => String c r'
      end
  | EmptyString => EmptyString
  end.

Definition strip (s : string) : string := rstrip (lstrip s).

Definition lower_char (c : ascii) : ascii :=
  let n := nat_of_ascii c in
  if ((65 <=? n) && (n <=? 90))%nat then ascii_of_nat (n + 32) else c.

Fixpoint lower (s : string) : string :=
  match s with
  | String c r => String (lower_char c) (lower r)
  | EmptyString => EmptyString
  end.

Fixpoint startswith (s p : string) : bool :=
  match p, s with
  | EmptyString, _ => true
  | String a p', String b s' => Ascii.eqb a b && startswith s' p'
  | String _ _, EmptyString => false
  end.

Fixpoint endswith (s p : string) : bool :=
  match s with
  | EmptyString => String.eqb p EmptyString
  | String _ r => String.eqb s p || endswith r p
  end.

(** [s.split("\n")] *)
Fixpoint split_lines (s : string) : list string :=
  match s with
  | EmptyString => [EmptyString]
  | String c r =>
      if Ascii.eqb c (ascii_of_nat 10) then EmptyString :: split_lines r
      else match split_lines r with
           | h :: t => String c h :: t
           | [] => [String c EmptyString]
           end
  end.

(** [sep.join(parts)] *)
Definition join (sep : string) (parts : list string) : string :=
  String.concat sep parts.

End PyStr.

(** ** Data model *)

Inductive attribute : Type := Clarity | Specificity | Bias | Actionability.

(** [attributes = ["clarity", "specificity", "bias", "actionability"]] *)
Definition attributes : list attribute :=
  [Clarity; Specificity; Bias; Actionability].

Definition attr_name (a : attribute) : string :=
  match a with
  | Clarity => "clarity"
  | Specificity => "specificity"
  | Bias => "bias"
  | Actionability => "actionability"
  end.

(** A dict whose keys are the four attribute names. *)
Record attr_dict (A : Type) : Type := AttrDict {
  d_clarity : A;
  d_specificity : A;
  d_bias : A;
  d_actionability : A
}.
Arguments AttrDict {A}.
Arguments d_clarity {A}.
Arguments d_specificity {A}.
Arguments d_bias {A}.
Arguments d_actionability {A}.

Definition attr_get {A} (d : attr_dict A) (a : attribute) : A :=
  match a with
  | Clarity => d_clarity d
  | Specificity => d_specificity d
  | Bias => d_bias d
  | Actionability => d_actionability d
  end.

(** The dict built by a loop or comprehension over the four attributes. *)
Definition attr_tabulate {A} (f : attribute -> A) : attr_dict A :=
  AttrDict (f Clarity) (f Specificity) (f Bias) (f Actionability).

(** [d.items()], in insertion order. *)
Definition attr_items {A} (d : attr_dict A) : list (attribute * A) :=
  map (fun a => (a, attr_get d a)) attributes.

(** A question dict.  [T] is what its two text values are: a [str] in the
    data model of the harness ([Question]); the parser of the scorer
    stores what the CSV row holds, which is [None] for a field that a
    short row lacks ([Question_of field]). *)
Record Question_of (T : Type) : Type := mkQuestion {
  section : T;
  question_number : Z;
  question_text : T;
  clarity : Z;
  specificity : Z;
  bias : Z;
  actionability : Z
}.
Arguments mkQuestion {T}.
Arguments section {T}.
Arguments question_number {T}.
Arguments question_text {T}.
Arguments clarity {T}.
Arguments specificity {T}.
Arguments bias {T}.
Arguments actionability {T}.

Abbreviation Question := (Question_of string).

(** A field of a CSV row as [csv.DictReader] gives it: the text, or [None]
    (the reader's [restval]) when the row has fewer fields than the header. *)
Abbreviation field := (option string).

(** [q[attr]] *)
Definition score {T} (q : Question_of T) (a : attribute) : Z :=
  match a with
  | Clarity => clarity q
  | Specificity => specificity q
  | Bias => bias q
  | Actionability => actionability q
  end.

(** What the scorer returns: both keys are always present.  The keys of
    [section_averages] are section values, so of the questions' text
    type. *)
Record ScoringResult_of (T : Type) `{Countable T} : Type := mkScoringResult {
  questions : list (Question_of T);
  section_averages : gmap T (attr_dict Q)
}.
Arguments mkScoringResult {T _ _}.
Arguments questions {T _ _}.
Arguments section_averages {T _ _}.

Abbreviation ScoringResult := (ScoringResult_of string).

(** The [expected_output] literal of a dataset entry: either key may be
    missing from the JSON object. *)
Record ExpectedOutput : Type := mkExpected {
  exp_questions : option (list Question);
  exp_section_averages : option (gmap string (attr_dict Q))
}.

Record EvalMetrics : Type := mkEvalMetrics {
  extraction_accuracy : Q;
  score_mae : attr_dict Q;
  score_within_1 : attr_dict Q;
  section_detection : Q
}.

(** ** Metrics calculator ([eval_harness.py], [calculate_eval_metrics]) *)

Module Metrics.

(** [q["question_text"].strip().lower()] *)
Definition normalize (q : Question) : string :=
  PyStr.lower (PyStr.strip (question_text q)).

(** [{q["question_text"].strip().lower() for q in qs}] *)
Definition text_keys (qs : list Question) : gset string :=
  list_to_set (map normalize qs).

(** [next((q for q in predicted if ... == exp_text), None)] *)
Definition find_match (predicted : list Question) (exp_text : string)
  : option Question :=
  List.find (fun q => String.eqb (normalize q) exp_text) predicted.

(** [len(l)], [sum(l)] on integers and on booleans, and [a / b]. *)
Definition len {A} (l : list A) : Z := Z.of_nat (length l).
Definition sum_Z (l : list Z) : Z := fold_left Z.add l 0.
Definition sum_bool (l : list bool) : Z :=
  fold_left (fun acc b => acc + Z.b2z b) l 0.
Definition truediv (a b : Z) : Q := (inject_Z a / inject_Z b)%Q.

(** Body of the loop over [expected["questions"]]: the state is the pair
    of lists [(errors, within_1)].  A question found is a dict with a
    [question_text] key, so [if pred_q:] holds whenever one is found. *)
Definition score_step (attr : attribute) (predicted : list Question)
    (st : list Z * list bool) (exp_q : Question) : list Z * list bool :=
  let exp_text := normalize exp_q in
  match find_match predicted exp_text with
  | Some pred_q =>
      let error := Z.abs (score pred_q attr - score exp_q attr) in
      (st.1 ++ [error], st.2 ++ [error <=? 1])
  | None => st
  end.

Definition score_loop (attr : attribute) (predicted expected : list Question)
  : list Z * list bool :=
  fold_left (score_step attr predicted) expected ([], []).

(** [sum(errors) / len(errors) if errors else 0.0] *)
Definition mae_of (errors : list Z) : Q :=
  match errors with
  | [] => 0%Q
  | _ => truediv (sum_Z errors) (len errors)
  end.

(** [sum(within_1) / len(within_1) if within_1 else 0.0] *)
Definition within_1_of (within_1 : list bool) : Q :=
  match within_1 with
  | [] => 0%Q
  | _ => truediv (sum_bool within_1) (len within_1)
  end.

(** Lines 66-70; a dict is truthy when it is not empty. *)
Definition section_detection_of (predicted : ScoringResult)
    (expected : ExpectedOutput) : Q :=
  match exp_section_averages expected with
  | Some exp_sa =>
      if (0 <? size exp_sa)%nat then
        let pred_sections : gset string := dom (section_averages predicted) in
        let exp_sections : gset string := dom exp_sa in
        if (0 <? size exp_sections)%nat then
          truediv (Z.of_nat (size (pred_sections ∩ exp_sections)))
                  (Z.of_nat (size exp_sections))
        else 0%Q
      else 0%Q
  | None => 0%Q
  end.

Definition calculate_eval_metrics (predicted : ScoringResult)
    (expected : ExpectedOutput) : outcome EvalMetrics :=
  let pred_questions := text_keys (questions predicted) in
  exp_qs <~ subscript "questions" (exp_questions expected) ;;
  let exp_questions := text_keys exp_qs in
  let extraction :=
    if (0 <? size exp_questions)%nat then
      truediv (Z.of_nat (size (pred_questions ∩ exp_questions)))
              (Z.of_nat (size exp_questions))
    else 0%Q in
  let loop attr := score_loop attr (questions predicted) exp_qs in
  Returns {|
    extraction_accuracy := extraction;
    score_mae := attr_tabulate (fun attr => mae_of (loop attr).1);
    score_within_1 := attr_tabulate (fun attr => within_1_of (loop attr).2);
    section_detection := section_detection_of predicted expected
  |}.

End Metrics.

(** ** Eval runner ([EvalHarness.run_evals]) *)

(** A cell of a result row: [eval_id] and [error] hold strings, the metric
    columns hold floats. *)
Inductive cell : Type :=
| CStr (s : string)
| CFloat (x : Q).

(** A dataset entry: any of the three keys may be missing from the JSON
    object. *)
Record EvalCase : Type := mkEvalCase {
  case_id : option string;
  case_document : option string;
  case_expected_output : option ExpectedOutput
}.

(** The row appended by the [except] branch:
    [{"eval_id": eval_id, "error": str(e)}]. *)
Definition error_row (eval_id msg : string) : gmap string cell :=
  <["error" := CStr msg]> (<["eval_id" := CStr eval_id]> ∅).

Module Runner.
Section run_evals.

(** The scoring collaborator, [self.scorer.score_document]: it reads and
    changes the outside world, and returns a result or raises. *)
Variable world : Type.
Variable score_document : string -> world -> outcome ScoringResult * world.

(** Lines 99-111: the flattened row of a successful case. *)
Definition flatten (eval_id : string) (metrics : EvalMetrics)
  : gmap string cell :=
  let result : gmap string cell :=
    <["section_detection" := CFloat (section_detection metrics)]>
    (<["extraction_acc" := CFloat (extraction_accuracy metrics)]>
    (<["eval_id" := CStr eval_id]> ∅)) in
  let result :=
    fold_left (fun (r : gmap string cell) '(attr, mae) =>
                 <[attr_name attr +:+ "_mae" := CFloat mae]> r)
              (attr_items (score_mae metrics)) result in
  fold_left (fun (r : gmap string cell) '(attr, within_1) =>
               <[attr_name attr +:+ "_within_1" := CFloat within_1]> r)
            (attr_items (score_within_1 metrics)) result.

(** The body of the [try] block up to [results.append(result)]. *)
Definition try_case (eval_id : string) (eval_case : EvalCase) (w : world)
  : outcome (gmap string cell) * world :=
  match subscript "document" (case_document eval_case) with
  | Raises e => (Raises e, w)
  | Returns document =>
      let '(scored, w') := score_document document w in
      (predicted <~ scored ;;
       expected <~ subscript "expected_output"
                     (case_expected_output eval_case) ;;
       metrics <~ Metrics.calculate_eval_metrics predicted expected ;;
       Returns (flatten eval_id metrics), w')
  end.

(** [try: ... except Exception as e: ...]: the row appended for a case. *)
Definition run_case (eval_id : string) (eval_case : EvalCase) (w : world)
  : gmap string cell * world :=
  let '(r, w') := try_case eval_id eval_case w in
  match r with
  | Returns result => (result, w')
  | Raises e => (error_row eval_id (exn_str e), w')
  end.

(** The [for eval_case in self.eval_dataset] loop; [eval_case["id"]] is
    read before the [try] block is entered. *)
Fixpoint run_loop (dataset : list EvalCase) (results : list (gmap string cell))
    (w : world) : outcome (list (gmap string cell)) * world :=
  match dataset with
  | [] => (Returns results, w)
  | eval_case :: rest =>
      match subscript "id" (case_id eval_case) with
      | Raises e => (Raises e, w)
      | Returns eval_id =>
          let '(row, w') := run_case eval_id eval_case w in
          run_loop rest (results ++ [row]) w'
      end
  end.

Definition run_evals (dataset : list EvalCase) (w : world)
  : outcome (list (gmap string cell)) * world :=
  run_loop dataset [] w.

End run_evals.
End Runner.

(** ** Threshold gate ([THRESHOLDS], [EvalHarness.check_pass_fail]) *)

Module Gate.

Definition THRESHOLDS : list (string * Q) :=
  [ ("extraction_accuracy", 0.95%Q);
    ("clarity_mae", 0.5%Q);
    ("specificity_mae", 0.5%Q);
    ("bias_mae", 0.7%Q);
    ("actionability_mae", 0.8%Q);
    ("clarity_within_1", 0.85%Q);
    ("specificity_within_1", 0.85%Q);
    ("bias_within_1", 0.80%Q);
    ("actionability_within_1", 0.80%Q) ].

(** *** The frame of result rows and its column means *)

(** The populated float cells of a column ([NaN] where the row lacks the
    key; [mean] skips them). *)
Definition populated (col : string) (rows : list (gmap string cell)) : list Q :=
  omap (fun r : gmap string cell =>
          match r !! col with Some (CFloat x) => Some x | _ => None end) rows.

(** [select_dtypes(include=['float64', 'int64'])]: the column exists and
    no row holds a string in it. *)
Definition is_numeric (col : string) (rows : list (gmap string cell)) : bool :=
  existsb (fun r : gmap string cell => bool_decide (is_Some (r !! col))) rows
  && forallb (fun r : gmap string cell =>
                match r !! col with Some (CStr _) => false | _ => true end) rows.

Definition sum_Q (l : list Q) : Q := fold_left Qplus l 0%Q.

(** The mean of a numeric column over its populated cells, as the exact
    quotient (pandas adds and divides in [float64]). *)

Definition column_mean (col : string) (rows : list (gmap string cell))
  : option Q :=
  if is_numeric col rows then
    Some (sum_Q (populated col rows)
          / inject_Z (Z.of_nat (length (populated col rows))))%Q
  else None.

(** [means = results_df[numeric_cols].mean()] *)
Definition aggregate_means (rows : list (gmap string cell)) : gmap string Q :=
  map_imap (fun col _ => column_mean col rows) (⋃ rows).

(** *** The threshold loop *)

Record check : Type := mkCheck {
  chk_metric : string;
  chk_actual : Q;
  chk_threshold : Q;
  chk_passed : bool
}.

(** Lines 158-166. *)
Definition passes (metric : string) (actual threshold : Q) : bool :=
  if PyStr.endswith metric "_mae" then Qle_bool actual threshold
  else Qle_bool threshold actual.

(** One iteration; the state is [all_passed] and the report lines printed
    so far. *)
Definition check_step (means : gmap string Q) (st : bool * list check)
    (entry : string * Q) : bool * list check :=
  let '(metric, threshold) := entry in
  match means !! metric with
  | None => st
  | Some actual =>
      let passed := passes metric actual threshold in
      (if negb passed then false else st.1,
       st.2 ++ [mkCheck metric actual threshold passed])
  end.

Definition threshold_checks (means : gmap string Q) : bool * list check :=
  fold_left (check_step means) THRESHOLDS (true, []).

Definition check_pass_fail (results_df : list (gmap string cell)) : bool :=
  (threshold_checks (aggregate_means results_df)).1.

End Gate.

(** ** Scorer ([questionnaire_scorer.py]) *)

Definition nl : string := String (ascii_of_nat 10) EmptyString.

Inductive content_block : Type :=
| TextBlock (text : string)
| DocumentBlock (media_type data : string).

(** What the scorer does to the outside world, in order. *)
Inductive event : Type :=
| EvWorkflowSpan (doc_path : string)
| EvLLMSpan (doc_path : string)
| EvReadDocx (doc_path : string)
| EvReadFile (doc_path : string)
| EvMessagesCreate (content : list content_block)
| EvWriteCsv (filename text : string).

Definition is_scoring_call (ev : event) : bool :=
  match ev with EvMessagesCreate _ => true | _ => false end.

(** What a collaborator (the file system, python-docx, the scoring
    service) answers: a value, or a failure of its own, which the scorer
    lets through as it is. *)
Inductive reply (A : Type) : Type :=
| Done (a : A)
| Failed (msg : string).
Arguments Done {A} a.
Arguments Failed {A} msg.

Definition collaborate {A} (r : reply A) : outcome A :=
  match r with
  | Done a => Returns a
  | Failed msg => Raises (CollaboratorError msg)
  end.

(** What [int(s)] does on a [str]: it returns the value, or raises one of
    its two [ValueError]s, for a text that is no integer literal and for
    one with more digits than the interpreter's limit (whose message names
    the limit and the number of digits). *)
Inductive int_reply : Type :=
| IntValue (z : Z)
| InvalidLiteral
| DigitLimit (limit digits : string).

(** Library functions and collaborators of both scorer variants.  A
    collaborator sees the trace of what happened before it is called. *)
Record environment : Type := mkEnvironment {
  (** [Path(p).suffix] and [Path(p).stem] *)
  path_suffix : string -> string;
  path_stem : string -> string;
  (** [int(s)] and [repr(s)] on a [str] *)
  py_int : string -> int_reply;
  py_repr : string -> string;
  (** [csv.DictReader(io.StringIO(text))], iterated: the dicts of the data
      rows it yields, in order, and then the message of the [csv.Error] it
      raises, if it raises one.  A dict has the columns of the header as
      keys; a field that a short row lacks is [None].  (The fields beyond
      the header are stored under the key [None], which is never read.) *)
  dict_reader : string -> list (gmap string field) * option string;
  (** [Document(p).paragraphs] as pairs [(text, style.name)] *)
  docx_paragraphs : string -> list event -> reply (list (string * string));
  (** [base64.b64encode(open(p, "rb").read()).decode()] *)
  read_base64 : string -> list event -> reply string;
  (** [self.client.messages.create(...).content[0].text] *)
  messages_create : list content_block -> list event -> reply string;
  (** [open(name, "w").write(text)] *)
  write_file : string -> string -> list event -> reply unit;
  SCORING_PROMPT : string
}.

Module Scorer.
Section scorer.

Variable env : environment.

(** *** [_parse_csv_output] *)

(** [int(v)] on a field: [None] is no number (the message is that of
    Python 3.10 and later), and a text is quoted in the message as [repr]
    prints it. *)
Definition int (v : field) : outcome Z :=
  match v with
  | None =>
      Raises (TypeError
        "int() argument must be a string, a bytes-like object or a real number, not 'NoneType'")
  | Some s =>
      match py_int env s with
      | IntValue z => Returns z
      | InvalidLiteral =>
          Raises (ValueError ("invalid literal for int() with base 10: "
                              +:+ py_repr env s))
      | DigitLimit limit digits =>
          Raises (ValueError
            ("Exceeds the limit (" +:+ limit
             +:+ " digits) for integer string conversion: value has "
             +:+ digits
             +:+ " digits; use sys.set_int_max_str_digits() to increase the limit"))
      end
  end.

(** [int(row[key])] *)
Definition row_int (row : gmap string field) (key : string) : outcome Z :=
  v <~ subscript key (row !! key) ;; int v.

(** [d[attr].append(v)] *)
Definition append_score (a : attribute) (v : Z) (d : attr_dict (list Z))
  : attr_dict (list Z) :=
  match a with
  | Clarity =>
      AttrDict (d_clarity d ++ [v]) (d_specificity d) (d_bias d)
               (d_actionability d)
  | Specificity =>
      AttrDict (d_clarity d) (d_specificity d ++ [v]) (d_bias d)
               (d_actionability d)
  | Bias =>
      AttrDict (d_clarity d) (d_specificity d) (d_bias d ++ [v])
               (d_actionability d)
  | Actionability =>
      AttrDict (d_clarity d) (d_specificity d) (d_bias d)
               (d_actionability d ++ [v])
  end.

(** Body of [for row in reader]; the state is
    [(questions, section_scores)]. *)
Definition parse_row
    (st : list (Question_of field) * gmap field (attr_dict (list Z)))
    (row : gmap string field)
  : outcome (list (Question_of field) * gmap field (attr_dict (list Z))) :=
  let '(questions, section_scores) := st in
  sec <~ subscript "Section" (row !! "Section") ;;
  num <~ row_int row "Question_Number" ;;
  text <~ subscript "Question_Text" (row !! "Question_Text") ;;
  c <~ row_int row "Clarity" ;;
  s <~ row_int row "Specificity" ;;
  b <~ row_int row "Bias" ;;
  a <~ row_int row "Actionability" ;;
  let question := mkQuestion sec num text c s b a in
  let questions := questions ++ [question] in
  section <~ subscript "Section" (row !! "Section") ;;
  let section_scores :=
    match section_scores !! section with
    | None => <[section := AttrDict [] [] [] []]> section_scores
    | Some _ => section_scores
    end in
  c' <~ row_int row "Clarity" ;;
  let section_scores := alter (append_score Clarity c') section section_scores in
  s' <~ row_int row "Specificity" ;;
  let section_scores := alter (append_score Specificity s') section section_scores in
  b' <~ row_int row "Bias" ;;
  let section_scores := alter (append_score Bias b') section section_scores in
  a' <~ row_int row "Actionability" ;;
  let section_scores := alter (append_score Actionability a') section section_scores in
  Returns (questions, section_scores).

Fixpoint parse_rows (rows : list (gmap string field))
    (st : list (Question_of field) * gmap field (attr_dict (list Z)))
  : outcome (list (Question_of field) * gmap field (attr_dict (list Z))) :=
  match rows with
  | [] => Returns st
  | row :: rest => st' <~ parse_row st row ;; parse_rows rest st'
  end.

(** [sum(vals) / len(vals)] *)
Definition average (vals : list Z) : outcome Q :=
  match vals with
  | [] => Raises ZeroDivisionError
  | _ => Returns (Metrics.truediv (Metrics.sum_Z vals) (Metrics.len vals))
  end.

(** [{attr: sum(vals) / len(vals) for attr, vals in scores.items()}] *)
Definition section_average (scores : attr_dict (list Z))
  : outcome (attr_dict Q) :=
  c <~ average (d_clarity scores) ;;
  s <~ average (d_specificity scores) ;;
  b <~ average (d_bias scores) ;;
  a <~ average (d_actionability scores) ;;
  Returns (AttrDict c s b a).

(** [for section, scores in section_scores.items()] *)
Fixpoint averages_loop (items : list (field * attr_dict (list Z)))
    (section_averages : gmap field (attr_dict Q))
  : outcome (gmap field (attr_dict Q)) :=
  match items with
  | [] => Returns section_averages
  | (section, scores) :: rest =>
      avg <~ section_average scores ;;
      averages_loop rest (<[section := avg]> section_averages)
  end.

(** The end of [for row in reader]: the reader is exhausted, or raises. *)
Definition reader_end (failure : option string) : outcome unit :=
  match failure with
  | None => Returns tt
  | Some msg => Raises (CsvError msg)
  end.

Definition _parse_csv_output (csv_text : string)
  : outcome (ScoringResult_of field) :=
  let reader := dict_reader env csv_text in
  st <~ parse_rows reader.1 ([], ∅) ;;
  _ <~ reader_end reader.2 ;;
  let '(questions, section_scores) := st in
  section_averages <~ averages_loop (map_to_list section_scores) ∅ ;;
  Returns (mkScoringResult questions section_averages).

(** *** [_extract_docx_text] *)

Definition _extract_docx_text (doc_path : string) (tr : list event)
  : outcome string * list event :=
  (paragraphs <~ collaborate (docx_paragraphs env doc_path tr) ;;
   let text_parts :=
     fold_left (fun (parts : list string) '(para_text, style_name) =>
                  let text := PyStr.strip para_text in
                  if String.eqb text EmptyString then parts
                  else if PyStr.startswith style_name "Heading"
                       then parts ++ [nl +:+ "## " +:+ text +:+ nl]
                       else parts ++ [text])
               paragraphs [] in
   Returns (PyStr.join nl text_parts),
   tr ++ [EvReadDocx doc_path]).

(** *** [score_document] *)

Definition unsupported_message (suffix : string) : string :=
  "Unsupported file format: " +:+ suffix +:+ ". Use .docx or .pdf".

(** Lines 133-157: the [if suffix == ".docx" ... elif ... else raise]. *)
Definition content_blocks_for (doc_path suffix : string) (tr : list event)
  : outcome (list content_block) * list event :=
  if String.eqb suffix ".docx" then
    let '(extracted, tr') := _extract_docx_text doc_path tr in
    (text_content <~ extracted ;;
     Returns [TextBlock ("Here is the questionnaire document:" +:+ nl +:+ nl
                         +:+ text_content +:+ nl +:+ nl
                         +:+ SCORING_PROMPT env)],
     tr')
  else if String.eqb suffix ".pdf" then
    (doc_data <~ collaborate (read_base64 env doc_path tr) ;;
     Returns [DocumentBlock "application/pdf" doc_data;
              TextBlock (SCORING_PROMPT env)],
     tr ++ [EvReadFile doc_path])
  else (Raises (ValueError (unsupported_message suffix)), tr).

(** Lines 206-211, shared with the legacy variant (lines 121-126). *)
Definition strip_markdown (text : string) : string :=
  let csv_text := PyStr.strip text in
  if PyStr.startswith csv_text "```" then
    let lines := PyStr.split_lines csv_text in
    if (2 <? length lines)%nat
    then PyStr.join nl (removelast (tl lines))
    else csv_text
  else csv_text.

Definition score_document (doc_path : string) (save_csv : bool)
    (tr : list event) : outcome (ScoringResult_of field) * list event :=
  let tr := tr ++ [EvWorkflowSpan doc_path] in
  let suffix := PyStr.lower (path_suffix env doc_path) in
  match content_blocks_for doc_path suffix tr with
  | (Raises e, tr) => (Raises e, tr)
  | (Returns content_blocks, tr) =>
      let tr := tr ++ [EvLLMSpan doc_path] in
      match collaborate (messages_create env content_blocks tr) with
      | Raises e => (Raises e, tr ++ [EvMessagesCreate content_blocks])
      | Returns text =>
          let tr := tr ++ [EvMessagesCreate content_blocks;
                           EvLLMSpan doc_path] in
          let csv_text := strip_markdown text in
          let csv_filename :=
            "scoring_results_" +:+ path_stem env doc_path +:+ ".csv" in
          let '(saved, tr) :=
            if save_csv
            then (collaborate (write_file env csv_filename csv_text tr),
                  tr ++ [EvWriteCsv csv_filename csv_text])
            else (Returns tt, tr) in
          match saved with
          | Raises e => (Raises e, tr)
          | Returns _ =>
              match _parse_csv_output csv_text with
              | Raises e => (Raises e, tr)
              | Returns result => (Returns result, tr ++ [EvWorkflowSpan doc_path])
              end
          end
      end
  end.

End scorer.
End Scorer.

(** ** Legacy scorer ([questionnaire_scrorer.py]) *)

Module LegacyScorer.
Section scorer.

Variable env : environment.

Definition media_types : gmap string string :=
  <[".doc" := "application/msword"]>
  (<[".pdf" := "application/pdf"]>
  (<[".docx" :=
     "application/vnd.openxmlformats-officedocument.wordprocessingml.document"]>
   ∅)).

(** [media_types.get(suffix, "application/pdf")] *)
Definition media_type_of (suffix : string) : string :=
  default "application/pdf" (media_types !! suffix).

(** [_parse_csv_output] is the same text in both files. *)
Definition _parse_csv_output := Scorer._parse_csv_output env.

Definition score_document (doc_path : string) (tr : list event)
  : outcome (ScoringResult_of field) * list event :=
  match collaborate (read_base64 env doc_path tr) with
  | Raises e => (Raises e, tr ++ [EvReadFile doc_path])
  | Returns doc_data =>
      let tr := tr ++ [EvReadFile doc_path] in
      let suffix := PyStr.lower (path_suffix env doc_path) in
      let media_type := media_type_of suffix in
      let content := [DocumentBlock media_type doc_data;
                      TextBlock (SCORING_PROMPT env)] in
      match collaborate (messages_create env content tr) with
      | Raises e => (Raises e, tr ++ [EvMessagesCreate content])
      | Returns text =>
          (_parse_csv_output (Scorer.strip_markdown text),
           tr ++ [EvMessagesCreate content])
      end
  end.

End scorer.
End LegacyScorer.

(** ** Trimming, as the specification words it *)

Module PyStrSpec.

Fixpoint all_space (s : string) : bool :=
  match s with
  | EmptyString => true
  | String c r => PyStr.isspace c && all_space r
  end.

Definition first_char (s : string) : option ascii :=
  match s with
  | EmptyString => None
  | String c _ => Some c
  end.

Fixpoint last_char (s : string) : option ascii :=
  match s with
  | EmptyString => None
  | String c EmptyString => Some c
  | String _ r => last_char r
  end.

Fixpoint no_newline (s : string) : bool :=
  match s with
  | EmptyString => true
  | String c r => negb (Ascii.eqb c (ascii_of_nat 10)) && no_newline r
  end.

End PyStrSpec.

(** ** The matching of the specification

    The pairing as the specification words it: walk the expected questions
    in order; an expected question is paired with the first predicted
    question of equal normalized text, and dropped when there is none. *)

Module MatchSpec.
Import Metrics.

Definition first_match (predicted : list Question) (e p : Question) : Prop :=
  exists before after,
    predicted = before ++ p :: after
    /\ normalize p = normalize e
    /\ Forall (fun q => normalize q <> normalize e) before.

Definition unmatched (predicted : list Question) (e : Question) : Prop :=
  Forall (fun q => normalize q <> normalize e) predicted.

Inductive pairing (predicted : list Question)
  : list Question -> list (Question * Question) -> Prop :=
| pairing_nil : pairing predicted [] []
| pairing_match e p expected pairs :
    first_match predicted e p ->
    pairing predicted expected pairs ->
    pairing predicted (e :: expected) ((p, e) :: pairs)
| pairing_skip e expected pairs :
    unmatched predicted e ->
    pairing predicted expected pairs ->
    pairing predicted (e :: expected) pairs.

(** [|predicted_value - expected_value|] of a pair. *)
Definition abs_error (attr : attribute) (pe : Question * Question) : Z :=
  Z.abs (score pe.1 attr - score pe.2 attr).

(** The same pairing, computed. *)
Definition matched_pairs (predicted expected : list Question)
  : list (Question * Question) :=
  omap (fun e => (fun p => (p, e)) <$> find_match predicted (normalize e))
       expected.

(** The section names an expected output declares: none when the
    [section_averages] key is missing. *)
Definition declared_sections (expected : ExpectedOutput) : gset string :=
  match exp_section_averages expected with
  | Some exp_sa => dom exp_sa
  | None => ∅
  end.

End MatchSpec.

(** ** The threshold table of the specification

    The table as the specification prints it, with a direction per metric;
    the code keeps no direction and tests the metric's name instead. *)

Module GateSpec.
Import Gate.

Inductive direction : Type := lower_is_better | higher_is_better.

Definition ThresholdTable : list (string * Q * direction) :=
  [ ("extraction_accuracy", 0.95%Q, higher_is_better);
    ("clarity_mae", 0.5%Q, lower_is_better);
    ("specificity_mae", 0.5%Q, lower_is_better);
    ("bias_mae", 0.7%Q, lower_is_better);
    ("actionability_mae", 0.8%Q, lower_is_better);
    ("clarity_within_1", 0.85%Q, higher_is_better);
    ("specificity_within_1", 0.85%Q, higher_is_better);
    ("bias_within_1", 0.80%Q, higher_is_better);
    ("actionability_within_1", 0.80%Q, higher_is_better) ].

(** [mean <= threshold] for a lower-is-better metric, [mean >= threshold]
    for a higher-is-better one; both bounds inclusive. *)
Definition meets (d : direction) (mean threshold : Q) : Prop :=
  match d with
  | lower_is_better => (mean <= threshold)%Q
  | higher_is_better => (threshold <= mean)%Q
  end.

Definition meetsb (d : direction) (mean threshold : Q) : bool :=
  match d with
  | lower_is_better => Qle_bool mean threshold
  | higher_is_better => Qle_bool threshold mean
  end.

(** The check of one table entry: none when the metric has no mean. *)
Definition evaluate (means : gmap string Q) (entry : string * Q * direction)
  : option check :=
  (fun actual => mkCheck entry.1.1 actual entry.1.2
                   (meetsb entry.2 actual entry.1.2))
    <$> means !! entry.1.1.

(** The checks that are evaluated, in table order. *)
Definition evaluated_checks (means : gmap string Q) : list check :=
  omap (evaluate means) ThresholdTable.

(** The direction the code reads off a metric's name. *)
Definition direction_of (metric : string) : direction :=
  if PyStr.endswith metric "_mae" then lower_is_better else higher_is_better.

End GateSpec.

(** ** Sample data

    The scenarios of the specification's section 8 and a small dataset, on
    which the definitions above are evaluated. *)

Module Sample.

Definition expected_age : Question := mkQuestion "Demographics" 1 "Age?" 5 4 3 2.
Definition predicted_age : Question := mkQuestion "General" 1 "age? " 4 4 5 2.
Definition expected_name : Question := mkQuestion "Demographics" 2 "Name?" 3 3 3 3.

Definition averages_of (q : Question) : attr_dict Q :=
  attr_tabulate (fun a => inject_Z (score q a)).

Definition predicted : ScoringResult :=
  mkScoringResult [predicted_age] {[ "General" := averages_of predicted_age ]}.

Definition expected : ExpectedOutput :=
  mkExpected (Some [expected_age; expected_name])
             (Some {[ "Demographics" := AttrDict 4%Q 3.5%Q 3%Q 2.5%Q ]}).

(** A scoring double: it scores [a.pdf], fails on every other document,
    and counts its calls. *)
Definition scorer (document : string) (calls : nat)
  : outcome ScoringResult * nat :=
  (if String.eqb document "a.pdf" then Returns predicted
   else Raises (CollaboratorError "scoring failed"),
   S calls).

Definition dataset : list EvalCase :=
  [ mkEvalCase (Some "case-1") (Some "a.pdf") (Some expected);
    mkEvalCase (Some "case-2") (Some "b.pdf") (Some expected);
    mkEvalCase (Some "case-3") None (Some expected);
    mkEvalCase (Some "case-4") (Some "a.pdf") None;
    mkEvalCase (Some "case-5") (Some "a.pdf") (Some (mkExpected None None));
    mkEvalCase (Some "case-6") (Some "a.pdf") (Some expected) ].

(** The same dataset with an entry that has no [id]. *)
Definition dataset_without_id : list EvalCase :=
  [ mkEvalCase (Some "case-1") (Some "a.pdf") (Some expected);
    mkEvalCase None (Some "a.pdf") (Some expected);
    mkEvalCase (Some "case-3") (Some "a.pdf") (Some expected) ].

(** A scoring double that fails on every document. *)
Definition failing_scorer (document : string) (calls : nat)
  : outcome ScoringResult * nat :=
  (Raises (CollaboratorError "service unavailable"), S calls).

(** Means that sit on every threshold. *)
Definition boundary_means : gmap string Q := list_to_map Gate.THRESHOLDS.

End Sample.

(** ** Sections of a scoring result *)

Module SectionSpec.
Section sections.

Context {T : Type} `{Countable T}.

(** The questions of a section, in document order. *)
Definition section_questions (s : T) (qs : list (Question_of T))
  : list (Question_of T) :=
  filter (fun q => section q = s) qs.

(** The score lists [_parse_csv_output] should hold for a section. *)
Definition section_scores_of (s : T) (qs : list (Question_of T))
  : attr_dict (list Z) :=
  attr_tabulate (fun a => map (fun q => score q a) (section_questions s qs)).

(** The loop invariant of [_parse_csv_output]: [section_scores] holds, for
    each section met so far, the scores of its questions in order, and no
    other key. *)
Definition scores_agree (qs : list (Question_of T))
    (ss : gmap T (attr_dict (list Z))) : Prop :=
  forall s : T,
    ss !! s = match section_questions s qs with
              | [] => None
              | _ => Some (section_scores_of s qs)
              end.

End sections.

(** A [ValueError] of [int], told by its message. *)
Definition int_error (e : exn) : Prop :=
  (exists quoted,
      e = ValueError ("invalid literal for int() with base 10: " +:+ quoted))
  \/ (exists limit digits,
        e = ValueError
              ("Exceeds the limit (" +:+ limit
               +:+ " digits) for integer string conversion: value has "
               +:+ digits
               +:+ " digits; use sys.set_int_max_str_digits() to increase the limit")).

(** The [TypeError] of [int(None)]. *)
Definition int_none_error (e : exn) : Prop :=
  e = TypeError
        "int() argument must be a string, a bytes-like object or a real number, not 'NoneType'".

(** What reading a row can raise: a column that the header lacks, a field
    that is no integer, a field that the row lacks. *)
Definition row_error (e : exn) : Prop :=
  (exists k, e = KeyError k) \/ int_error e \/ int_none_error e.

End SectionSpec.

(** ** A sample environment for the scorer *)

Module SampleEnv.

Fixpoint digits_value (s : string) (acc : Z) : option Z :=
  match s with
  | EmptyString => Some acc
  | String c r =>
      let n := nat_of_ascii c in
      if ((48 <=? n) && (n <=? 57))%nat
      then digits_value r (10 * acc + Z.of_nat (n - 48))
      else None
  end.

(** [int] on plain decimal digits. *)
Definition decimal (s : string) : int_reply :=
  match s with
  | EmptyString => InvalidLiteral
  | _ => match digits_value s 0 with
         | Some z => IntValue z
         | None => InvalidLiteral
         end
  end.

(** [repr] of a text without quotes, backslashes and control characters
    (enough for the sample texts). *)
Definition quoted (s : string) : string := "'" +:+ s +:+ "'".

(** The text from the last dot on (enough of [Path.suffix] for the sample
    paths). *)
Fixpoint suffix_of (s : string) : string :=
  match s with
  | EmptyString => EmptyString
  | String c r =>
      match suffix_of r with
      | EmptyString => if Ascii.eqb c "." then s else EmptyString
      | found => found
      end
  end.

(** The dict of a row under the header
    [Section,Question_Number,Question_Text,Clarity,Specificity,Bias,Actionability]. *)
Definition header_row (sec num text c s b a : field) : gmap string field :=
  <["Actionability" := a]> (<["Bias" := b]> (<["Specificity" := s]>
  (<["Clarity" := c]> (<["Question_Text" := text]>
  (<["Question_Number" := num]> (<["Section" := sec]> ∅)))))).

(** A row with all seven fields. *)
Definition csv_row (sec num text c s b a : string) : gmap string field :=
  header_row (Some sec) (Some num) (Some text) (Some c) (Some s) (Some b)
             (Some a).

Definition csv_rows : list (gmap string field) :=
  [ csv_row "Demographics" "1" "What is your age?" "5" "5" "5" "3";
    csv_row "Feedback" "1" "Any comments?" "3" "2" "4" "2";
    csv_row "Demographics" "2" "How satisfied are you?" "4" "2" "2" "4" ].

Definition env : environment := {|
  path_suffix := suffix_of;
  path_stem := fun _ => "survey";
  py_int := decimal;
  py_repr := quoted;
  dict_reader := fun _ => (csv_rows, None);
  docx_paragraphs := fun _ _ =>
    Done [("Demographics", "Heading 1"); ("  What is your age? ", "Normal")];
  read_base64 := fun _ _ => Done "JVBERi0=";
  messages_create := fun _ _ => Done "Section,Question_Number";
  write_file := fun _ _ _ => Done tt;
  SCORING_PROMPT := "Score each question."
|}.




(** A reply whose header ends in [Question_Text] and whose second row
    stops before that field. *)
Definition text_last_env : environment := {|
  path_suffix := suffix_of;
  path_stem := fun _ => "survey";
  py_int := decimal;
  py_repr := quoted;
  dict_reader := fun _ =>
    ([csv_row "Demographics" "1" "What is your age?" "5" "5" "5" "3";
      header_row (Some "Feedback") (Some "1") None (Some "3") (Some "2")
                 (Some "4") (Some "2")],
     None);
  docx_paragraphs := fun _ _ => Failed "Package not found";
  read_base64 := fun _ _ => Done "JVBERi0=";
  messages_create := fun _ _ => Done "Section,Question_Number";
  write_file := fun _ _ _ => Done tt;
  SCORING_PROMPT := "Score each question."
|}.

End SampleEnv.

(** ** The rows of a reply, read one by one *)

Module ScorerSpec.
Section spec.

Variable env : environment.



End spec.

(** The line a paragraph contributes to the extracted text: none when it
    is blank, a [##] heading between blank lines for a heading style. *)
Definition docx_line (paragraph : string * string) : option string :=
  let text := PyStr.strip paragraph.1 in
  if String.eqb text EmptyString then None
  else if PyStr.startswith paragraph.2 "Heading"
       then Some (nl +:+ "## " +:+ text +:+ nl)
       else Some text.


End ScorerSpec.

(** ** The command line of the harness ([eval_harness.py], [__main__]) *)

Module Main.
Section main.

Variable world : Type.
Variable score_document : string -> world -> outcome ScoringResult * world.
(** [EvalHarness(path)]: [json.load(open(path))] and the scorer's client. *)
Variable load_harness : string -> world -> reply (list EvalCase) * world.
(** [results_df.to_csv("eval_results.csv", index=False)] *)
Variable to_csv : list (gmap string cell) -> world -> reply unit * world.

(** The status passed to [sys.exit], or the exception that escapes. *)
Definition main (argv : list string) (w : world) : outcome Z * world :=
  match argv with
  | _ :: path :: _ =>
      let '(loaded, w) := load_harness path w in
      match collaborate loaded with
      | Raises e => (Raises e, w)
      | Returns dataset =>
          let '(ran, w) := Runner.run_evals world score_document dataset w in
          match ran with
          | Raises e => (Raises e, w)
          | Returns results_df =>
              let '(saved, w) := to_csv results_df w in
              match collaborate saved with
              | Raises e => (Raises e, w)
              | Returns _ =>
                  let passed := Gate.check_pass_fail results_df in
                  (Returns (if passed then 0 else 1), w)
              end
          end
      end
  | _ => (Returns 1, w)
  end.

(** The exit status of the process: an exception that escapes ends the
    interpreter with status 1. *)
Definition exit_status (r : outcome Z) : Z :=
  match r with
  | Returns status => status
  | Raises _ => 1
  end.

End main.
End Main.


(** ** Relations between questions *)

Module QuestionRel.

(** Two questions the calculator cannot tell apart: equal keys, equal
    scores.  Section, number and the raw text may differ. *)
Definition same_key_and_scores (q q' : Question) : Prop :=
  Metrics.normalize q = Metrics.normalize q'
  /\ forall a : attribute, score q a = score q' a.

(** Every core score of the question lies in [lo, hi]. *)
Definition scores_within {T} (lo hi : Z) (q : Question_of T) : Prop :=
  forall a : attribute, lo <= score q a <= hi.

End QuestionRel.

(** ** Properties of the Python string model *)

Module PyStrFacts.
Import PyStr.

Lemma lower_idempotent (s : string) : lower (lower s) = lower s.
Proof.
  induction s as [|c r IH]; simpl; [reflexivity|].
  rewrite IH. f_equal.
  unfold lower_char.
  destruct ((65 <=? nat_of_ascii c) && (nat_of_ascii c <=? 90))%nat eqn:E.
  - apply andb_true_iff in E as [E1 E2].
    apply Nat.leb_le in E1. apply Nat.leb_le in E2.
    rewrite nat_ascii_embedding by lia.
    replace ((65 <=? nat_of_ascii c + 32) && (nat_of_ascii c + 32 <=? 90))%nat
      with false; [reflexivity|].
    symmetry. apply andb_false_iff. right. apply Nat.leb_gt. lia.
  - rewrite E. reflexivity.
Qed.

Lemma lstrip_spec (s : string) :
  exists l, s = l +:+ lstrip s
            /\ PyStrSpec.all_space l = true
            /\ forall c, PyStrSpec.first_char (lstrip s) = Some c ->
                         isspace c = false.
Proof.
  induction s as [|d t (l & Heq & Hl & Hc)].
  - exists EmptyString. repeat split. discriminate.
  - cbn [lstrip]. destruct (isspace d) eqn:E.
    + exists (String d l).
      split; [change (String d t = String d (l +:+ lstrip t));
              rewrite <- Heq; reflexivity|].
      split; [cbn [PyStrSpec.all_space]; rewrite E, Hl; reflexivity|exact Hc].
    + exists EmptyString. repeat split. intros c [= <-]. exact E.
Qed.

Lemma rstrip_spec (s : string) :
  exists r, s = rstrip s +:+ r
            /\ PyStrSpec.all_space r = true
            /\ (forall c, PyStrSpec.last_char (rstrip s) = Some c ->
                          isspace c = false)
            /\ (forall c, PyStrSpec.first_char (rstrip s) = Some c ->
                          PyStrSpec.first_char s = Some c).
Proof.
  induction s as [|d t (r & Heq & Hr & Hlast & _)].
  - exists EmptyString. repeat split; discriminate.
  - cbn [rstrip]. destruct (rstrip t) as [|e u] eqn:Et.
    + change (t = r) in Heq. subst r.
      destruct (isspace d) eqn:E.
      * exists (String d t).
        split; [reflexivity|].
        split; [cbn [PyStrSpec.all_space]; rewrite E, Hr; reflexivity|].
        split; discriminate.
      * exists t.
        split; [reflexivity|]. split; [exact Hr|].
        split; [intros c [= <-]; exact E|auto].
    + exists r.
      split; [change (String d t = String d (String e u +:+ r));
              rewrite <- Heq; reflexivity|].
      split; [exact Hr|]. split; [exact Hlast|auto].
Qed.

(** [strip] removes white space at both ends, and nothing else. *)
Lemma strip_spec (s : string) :
  exists l r,
    s = l +:+ strip s +:+ r
    /\ PyStrSpec.all_space l = true
    /\ PyStrSpec.all_space r = true
    /\ (forall c, PyStrSpec.first_char (strip s) = Some c -> isspace c = false)
    /\ (forall c, PyStrSpec.last_char (strip s) = Some c -> isspace c = false).
Proof.
  destruct (lstrip_spec s) as (l & Hl & Hls & Hfirst).
  destruct (rstrip_spec (lstrip s)) as (r & Hr & Hrs & Hlast & Hkeep).
  exists l, r. unfold strip.
  split; [rewrite <- Hr; exact Hl|].
  repeat split; auto.
Qed.

End PyStrFacts.

(** ** The metrics calculator *)

Module MetricsFacts.
Import Metrics MatchSpec.

Lemma sum_Z_acc (l : list Z) (a : Z) : fold_left Z.add l a = a + sum_Z l.
Proof.
  unfold sum_Z. revert a.
  induction l as [|x l IH]; intros a; simpl; [lia|].
  rewrite (IH (a + x)), (IH (0 + x)). lia.
Qed.

Lemma sum_Z_cons (x : Z) (l : list Z) : sum_Z (x :: l) = x + sum_Z l.
Proof. unfold sum_Z at 1. simpl. apply sum_Z_acc. Qed.

Lemma sum_Z_abs_nonneg (l : list Z) : Forall (fun x => 0 <= x) l -> 0 <= sum_Z l.
Proof.
  induction 1 as [|x l Hx _ IH]; [unfold sum_Z; simpl; lia|].
  rewrite sum_Z_cons. lia.
Qed.

Lemma sum_bool_acc (l : list bool) (a : Z) :
  fold_left (fun acc b => acc + Z.b2z b) l a = a + sum_bool l.
Proof.
  unfold sum_bool. revert a.
  induction l as [|x l IH]; intros a; simpl; [lia|].
  rewrite (IH (a + Z.b2z x)), (IH (0 + Z.b2z x)). lia.
Qed.

(** [sum] of a list of booleans counts the [True]s. *)
Lemma sum_bool_count (l : list bool) :
  sum_bool l = Z.of_nat (length (filter (fun b => b = true) l)).
Proof.
  induction l as [|x l IH]; [reflexivity|].
  unfold sum_bool at 1. cbn [fold_left]. rewrite sum_bool_acc, IH.
  destruct x.
  - rewrite filter_cons_True by reflexivity. cbn [length Z.b2z]. lia.
  - rewrite filter_cons_False by discriminate. cbn [Z.b2z]. lia.
Qed.

Lemma truediv_unit (a b : Z) :
  0 <= a <= b -> 0 < b -> (0 <= truediv a b /\ truediv a b <= 1)%Q.
Proof.
  intros Hab Hb. unfold truediv, Qdiv, Qle.
  destruct b as [|b|b]; try lia.
  simpl. split; nia.
Qed.

Lemma truediv_nonneg (a b : Z) : 0 <= a -> 0 < b -> (0 <= truediv a b)%Q.
Proof.
  intros Ha Hb. unfold truediv, Qdiv, Qle.
  destruct b as [|b|b]; try lia.
  simpl. nia.
Qed.

(** The MAE of a list of absolute errors is not negative. *)
Lemma mae_of_nonneg (errors : list Z) :
  Forall (fun x => 0 <= x) errors -> (0 <= mae_of errors)%Q.
Proof.
  intros H. destruct errors as [|x l]; [unfold Qle; simpl; lia|].
  unfold mae_of. apply truediv_nonneg.
  - apply sum_Z_abs_nonneg, H.
  - unfold len. cbn [length]. lia.
Qed.

(** *** The loop computes the pairing of the specification *)

Lemma find_match_Some predicted text p :
  find_match predicted text = Some p ->
  exists before after,
    predicted = before ++ p :: after
    /\ normalize p = text
    /\ Forall (fun q => normalize q <> text) before.
Proof.
  unfold find_match.
  induction predicted as [|q l IH]; simpl; [discriminate|].
  destruct (String.eqb (normalize q) text) eqn:E.
  - intros [= <-]. exists [], l. apply String.eqb_eq in E. auto.
  - intros H. destruct (IH H) as (before & after & -> & Hp & Hb).
    exists (q :: before), after. repeat split; auto.
    constructor; [|exact Hb]. apply String.eqb_neq. exact E.
Qed.

Lemma find_match_None predicted text :
  find_match predicted text = None ->
  Forall (fun q => normalize q <> text) predicted.
Proof.
  unfold find_match.
  induction predicted as [|q l IH]; simpl; [constructor|].
  destruct (String.eqb (normalize q) text) eqn:E; [discriminate|].
  intros H. constructor; [apply String.eqb_neq; exact E | auto].
Qed.

Lemma matched_pairs_pairing predicted expected :
  pairing predicted expected (matched_pairs predicted expected).
Proof.
  induction expected as [|e l IH]; [constructor|].
  unfold matched_pairs. simpl.
  destruct (find_match predicted (normalize e)) as [p|] eqn:E; simpl.
  - apply pairing_match; [|exact IH].
    destruct (find_match_Some _ _ _ E) as (b & a & ? & ? & ?).
    exists b, a. auto.
  - apply pairing_skip; [|exact IH].
    apply find_match_None. exact E.
Qed.

(** The pairing is a function of the two question lists. *)
Lemma first_match_unmatched predicted e p :
  first_match predicted e p -> unmatched predicted e -> False.
Proof.
  intros (b & a & -> & Hp & _) Hu. unfold unmatched in Hu.
  apply Forall_app in Hu as [_ Hu]. inversion Hu; subst. contradiction.
Qed.

Lemma first_match_unique predicted e p p' :
  first_match predicted e p -> first_match predicted e p' -> p = p'.
Proof.
  intros (b & a & -> & Hp & Hb) (b' & a' & Heq & Hp' & Hb').
  revert b' Heq Hb'. induction b as [|x b IH]; intros b' Heq Hb'.
  - destruct b' as [|y b']; simpl in Heq; [congruence|].
    injection Heq as <- _. inversion Hb'; subst. contradiction.
  - destruct b' as [|y b']; simpl in Heq.
    + injection Heq as <- _. inversion Hb; subst. contradiction.
    + injection Heq as <- Heq. inversion Hb; subst. inversion Hb'; subst.
      eapply IH; eauto.
Qed.

Lemma pairing_unique predicted expected pairs pairs' :
  pairing predicted expected pairs -> pairing predicted expected pairs' ->
  pairs = pairs'.
Proof.
  intros H. revert pairs'.
  induction H as [|e p l ps Hm _ IH|e l ps Hu _ IH]; intros pairs' H'.
  - inversion H'. reflexivity.
  - inversion H'; subst.
    + f_equal; [|auto]. f_equal. eapply first_match_unique; eauto.
    + exfalso. eapply first_match_unmatched; eauto.
  - inversion H'; subst; [|auto].
    exfalso. eapply first_match_unmatched; eauto.
Qed.

Lemma score_loop_acc attr predicted expected (st : list Z * list bool) :
  fold_left (score_step attr predicted) expected st
  = (st.1 ++ map (abs_error attr) (matched_pairs predicted expected),
     st.2 ++ map (fun pe => abs_error attr pe <=? 1)
                 (matched_pairs predicted expected)).
Proof.
  revert st. induction expected as [|e l IH]; intros [errs w1]; simpl.
  - rewrite !app_nil_r. reflexivity.
  - rewrite IH. unfold score_step, matched_pairs. simpl.
    destruct (find_match predicted (normalize e)) as [p|]; simpl.
    + rewrite <- !app_assoc. reflexivity.
    + reflexivity.
Qed.

Lemma score_loop_spec attr predicted expected :
  score_loop attr predicted expected
  = (map (abs_error attr) (matched_pairs predicted expected),
     map (fun pe => abs_error attr pe <=? 1) (matched_pairs predicted expected)).
Proof. unfold score_loop. rewrite score_loop_acc. reflexivity. Qed.

Lemma attr_get_tabulate {A} (f : attribute -> A) (a : attribute) :
  attr_get (attr_tabulate f) a = f a.
Proof. destruct a; reflexivity. Qed.

Lemma within_1_count attr (pairs : list (Question * Question)) :
  sum_bool (map (fun pe => abs_error attr pe <=? 1) pairs)
  = Z.of_nat (length (filter (fun pe => abs_error attr pe <= 1) pairs)).
Proof.
  induction pairs as [|pe l IH]; [reflexivity|].
  unfold sum_bool at 1. cbn [map fold_left]. rewrite sum_bool_acc, IH.
  destruct (Z.leb_spec (abs_error attr pe) 1) as [Hle|Hgt].
  - rewrite filter_cons_True by exact Hle. cbn [length Z.b2z]. lia.
  - rewrite filter_cons_False by lia. cbn [Z.b2z]. lia.
Qed.

Lemma intersection_size_le (X Y : gset string) : (size (X ∩ Y) <= size Y)%nat.
Proof. apply subseteq_size, intersection_subseteq_r. Qed.

Lemma elem_of_text_keys (k : string) (qs : list Question) :
  k ∈ text_keys qs <->
  exists q, q ∈ qs /\ k = PyStr.lower (PyStr.strip (question_text q)).
Proof.
  unfold text_keys. rewrite elem_of_list_to_set, list_elem_of_In, in_map_iff.
  split.
  - intros (q & Hk & Hq). subst k. exists q.
    split; [apply list_elem_of_In; exact Hq|reflexivity].
  - intros (q & Hq & ->). exists q. split; [reflexivity|apply list_elem_of_In; exact Hq].
Qed.

(** C2: for each attribute, the calculator walks the expected questions
    in order, pairs each with the first predicted question of equal
    trimmed and lowercased text, leaves unmatched expected questions out,
    and reports [score_mae[attr]] as the mean of
    [|predicted_value - expected_value|] over the pairs, or [0.0] when
    there is no pair. *)
Theorem score_mae_is_mean_over_first_matches
    (predicted : ScoringResult) (exp_qs : list Question)
    (exp_sa : option (gmap string (attr_dict Q))) (attr : attribute) :
  exists (m : EvalMetrics) (pairs : list (Question * Question)),
    calculate_eval_metrics predicted (mkExpected (Some exp_qs) exp_sa)
      = Returns m
    /\ pairing (questions predicted) exp_qs pairs
    /\ (forall pairs', pairing (questions predicted) exp_qs pairs' ->
                       pairs' = pairs)
    /\ (pairs = [] -> attr_get (score_mae m) attr = 0%Q)
    /\ (pairs <> [] ->
        attr_get (score_mae m) attr
        = (inject_Z (sum_Z (map (abs_error attr) pairs))
           / inject_Z (Z.of_nat (length pairs)))%Q).
Proof.
  eexists. exists (matched_pairs (questions predicted) exp_qs).
  split; [reflexivity|].
  split; [apply matched_pairs_pairing|].
  split.
  { intros pairs' H. eapply pairing_unique; [exact H|].
    apply matched_pairs_pairing. }
  cbn [score_mae]. rewrite attr_get_tabulate, score_loop_spec. cbn [fst].
  split.
  - intros ->. reflexivity.
  - intros Hne.
    destruct (matched_pairs (questions predicted) exp_qs) as [|pe l];
      [contradiction|].
    unfold mae_of, truediv, len. cbn [map length]. rewrite length_map.
    reflexivity.
Qed.

(** C3: [extraction_accuracy] is the size of the intersection of the two
    sets of trimmed and lowercased question texts over the size of the
    expected set; it is [0.0] when the expected set is empty, and lies in
    [0, 1]. *)
Theorem extraction_accuracy_is_key_set_overlap
    (predicted : ScoringResult) (exp_qs : list Question)
    (exp_sa : option (gmap string (attr_dict Q))) :
  exists m : EvalMetrics,
    calculate_eval_metrics predicted (mkExpected (Some exp_qs) exp_sa)
      = Returns m
    /\ (forall k : string,
          k ∈ text_keys (questions predicted) ∩ text_keys exp_qs <->
          (exists p, p ∈ questions predicted
                     /\ k = PyStr.lower (PyStr.strip (question_text p)))
          /\ (exists e, e ∈ exp_qs
                        /\ k = PyStr.lower (PyStr.strip (question_text e))))
    /\ (size (text_keys exp_qs) = 0%nat -> extraction_accuracy m = 0%Q)
    /\ (size (text_keys exp_qs) <> 0%nat ->
        extraction_accuracy m
        = (inject_Z (Z.of_nat (size (text_keys (questions predicted)
                                      ∩ text_keys exp_qs)))
           / inject_Z (Z.of_nat (size (text_keys exp_qs))))%Q)
    /\ (0 <= extraction_accuracy m /\ extraction_accuracy m <= 1)%Q.
Proof.
  eexists. split; [reflexivity|]. cbn [extraction_accuracy].
  split.
  { intros k. rewrite elem_of_intersection, !elem_of_text_keys. reflexivity. }
  destruct (size (text_keys exp_qs)) as [|n] eqn:E.
  - replace (0 <? 0)%nat with false by reflexivity.
    split; [intros _; reflexivity|]. split; [intros H; contradiction|].
    unfold Qle; simpl; lia.
  - replace (0 <? S n)%nat with true by reflexivity.
    split; [discriminate|]. split; [reflexivity|].
    apply truediv_unit; [|lia].
    pose proof (intersection_size_le (text_keys (questions predicted))
                  (text_keys exp_qs)). lia.
Qed.

(** C5: [score_within_1[attr]] is the fraction of the pairs (the pairs of
    the MAE) whose absolute difference is at most 1, [0.0] when there is
    no pair, and lies in [0, 1]. *)
Theorem score_within_1_is_fraction_of_near_misses
    (predicted : ScoringResult) (exp_qs : list Question)
    (exp_sa : option (gmap string (attr_dict Q))) (attr : attribute) :
  exists (m : EvalMetrics) (pairs : list (Question * Question)),
    calculate_eval_metrics predicted (mkExpected (Some exp_qs) exp_sa)
      = Returns m
    /\ pairing (questions predicted) exp_qs pairs
    /\ (pairs = [] -> attr_get (score_within_1 m) attr = 0%Q)
    /\ (pairs <> [] ->
        attr_get (score_within_1 m) attr
        = (inject_Z (Z.of_nat
             (length (filter (fun pe => (abs_error attr pe <= 1)%Z) pairs)))
           / inject_Z (Z.of_nat (length pairs)))%Q)
    /\ (0 <= attr_get (score_within_1 m) attr
        /\ attr_get (score_within_1 m) attr <= 1)%Q.
Proof.
  eexists. exists (matched_pairs (questions predicted) exp_qs).
  split; [reflexivity|].
  split; [apply matched_pairs_pairing|].
  cbn [score_within_1]. rewrite attr_get_tabulate, score_loop_spec. cbn [snd].
  destruct (matched_pairs (questions predicted) exp_qs) as [|pe l] eqn:E.
  - split; [intros _; reflexivity|]. split; [intros H; contradiction|].
    cbn [map within_1_of]. unfold Qle; simpl; lia.
  - split; [discriminate|].
    assert (Hw : within_1_of (map (fun pe => abs_error attr pe <=? 1) (pe :: l))
                 = truediv (Z.of_nat (length (filter
                      (fun pe => abs_error attr pe <= 1) (pe :: l))))
                    (Z.of_nat (length (pe :: l)))).
    { rewrite <- within_1_count. unfold within_1_of, len. cbn [map length].
      rewrite length_map. reflexivity. }
    rewrite Hw. split; [reflexivity|].
    apply truediv_unit; [|cbn [length]; lia].
    pose proof (length_filter (fun pe => abs_error attr pe <= 1) (pe :: l)).
    lia.
Qed.

(** C6: [section_detection] is the size of the intersection of the
    predicted and expected section-name sets over the size of the
    expected set, and [0.0] when the expected output declares no
    section. *)
Theorem section_detection_is_section_set_overlap
    (predicted : ScoringResult) (exp_qs : list Question)
    (exp_sa : option (gmap string (attr_dict Q))) :
  exists m : EvalMetrics,
    calculate_eval_metrics predicted (mkExpected (Some exp_qs) exp_sa)
      = Returns m
    /\ (size (declared_sections (mkExpected (Some exp_qs) exp_sa)) = 0%nat ->
        section_detection m = 0%Q)
    /\ (size (declared_sections (mkExpected (Some exp_qs) exp_sa)) <> 0%nat ->
        section_detection m
        = (inject_Z (Z.of_nat
             (size (dom (section_averages predicted)
                    ∩ declared_sections (mkExpected (Some exp_qs) exp_sa))))
           / inject_Z (Z.of_nat
               (size (declared_sections (mkExpected (Some exp_qs) exp_sa)))))%Q).
Proof.
  eexists. split; [reflexivity|]. cbn [section_detection].
  unfold section_detection_of, declared_sections. cbn [exp_section_averages].
  destruct exp_sa as [sa|].
  - rewrite size_dom.
    destruct (size sa) as [|n] eqn:E.
    + split; [reflexivity|]. intros H; contradiction.
    + replace (0 <? S n)%nat with true by reflexivity.
      split; [discriminate|]. intros _. reflexivity.
  - rewrite size_empty. split; [reflexivity|]. intros H; contradiction.
Qed.

(** The scenarios of the specification: [Age?] against [age? ] with
    clarity 5 against 4, and two expected questions of which one is
    matched. *)
Example scenario_texts_match_after_normalization :
  exists m,
    calculate_eval_metrics Sample.predicted
      (mkExpected (Some [Sample.expected_age]) None) = Returns m
    /\ (extraction_accuracy m == 1)%Q
    /\ (attr_get (score_mae m) Clarity == 1)%Q
    /\ (attr_get (score_within_1 m) Clarity == 1)%Q.
Proof. eexists. split; [reflexivity|]. repeat split. Qed.

Example scenario_one_of_two_matched :
  exists m,
    calculate_eval_metrics Sample.predicted Sample.expected = Returns m
    /\ (extraction_accuracy m == 1 # 2)%Q
    /\ matched_pairs (questions Sample.predicted)
         [Sample.expected_age; Sample.expected_name]
       = [(Sample.predicted_age, Sample.expected_age)]
    /\ (attr_get (score_mae m) Bias == 2)%Q
    /\ (attr_get (score_within_1 m) Bias == 0)%Q
    /\ (section_detection m == 0)%Q.
Proof. eexists. split; [reflexivity|]. repeat split. Qed.

End MetricsFacts.

(** ** The threshold gate *)

Module GateFacts.
Import Gate GateSpec.

Lemma passes_meetsb metric actual threshold :
  passes metric actual threshold = meetsb (direction_of metric) actual threshold.
Proof.
  unfold passes, direction_of.
  destruct (PyStr.endswith metric "_mae"); reflexivity.
Qed.

Lemma meetsb_meets d mean threshold :
  meetsb d mean threshold = true <-> meets d mean threshold.
Proof. destruct d; apply Qle_bool_iff. Qed.

Lemma check_step_evaluate (means : gmap string Q) (st : bool * list check)
    (entry : string * Q * direction) :
  direction_of entry.1.1 = entry.2 ->
  check_step means st entry.1
  = (st.1 && forallb chk_passed (option_list (evaluate means entry)),
     st.2 ++ option_list (evaluate means entry)).
Proof.
  destruct entry as [[metric threshold] d], st as [ok report].
  cbn [fst snd]. intros Hd.
  unfold check_step, evaluate. cbn [fst snd].
  destruct (means !! metric) as [actual|].
  - cbn. rewrite passes_meetsb, Hd.
    destruct (meetsb d actual threshold); cbn.
    + rewrite andb_true_r. reflexivity.
    + rewrite andb_false_r. reflexivity.
  - cbn. rewrite andb_true_r, app_nil_r. reflexivity.
Qed.

Lemma check_loop_spec (means : gmap string Q)
    (table : list (string * Q * direction)) (st : bool * list check) :
  Forall (fun e : string * Q * direction => direction_of e.1.1 = e.2) table ->
  fold_left (check_step means) (map (fun e : string * Q * direction => e.1) table) st
  = (st.1 && forallb chk_passed (omap (evaluate means) table),
     st.2 ++ omap (evaluate means) table).
Proof.
  intros H. revert st.
  induction H as [|entry table Hd _ IH]; intros st.
  - cbn. rewrite andb_true_r, app_nil_r. destruct st; reflexivity.
  - cbn [map fold_left omap list_omap]. rewrite IH, check_step_evaluate by exact Hd.
    cbn [fst snd]. fold (omap (evaluate means) table).
    destruct (evaluate means entry) as [c|].
    + change (option_list (Some c)) with [c].
      rewrite <- app_assoc, <- andb_assoc. cbn [forallb app].
      rewrite andb_true_r. reflexivity.
    + change (option_list (@None check)) with (@nil check).
      cbn [forallb]. rewrite andb_true_r, app_nil_r. reflexivity.
Qed.

Lemma table_directions :
  Forall (fun e : string * Q * direction => direction_of e.1.1 = e.2)
         ThresholdTable.
Proof. repeat constructor. Qed.

Lemma threshold_checks_spec (means : gmap string Q) :
  threshold_checks means
  = (forallb chk_passed (evaluated_checks means), evaluated_checks means).
Proof.
  unfold threshold_checks.
  change THRESHOLDS with (map (fun e : string * Q * direction => e.1) ThresholdTable).
  rewrite check_loop_spec by exact table_directions. reflexivity.
Qed.

(** C1: the gate evaluates the nine fixed thresholds and no other; a
    lower-is-better metric passes exactly when its mean is at most the
    threshold, a higher-is-better one exactly when its mean is at least
    the threshold (both inclusive); the verdict is the conjunction of the
    evaluated checks. *)
Theorem gate_checks_the_nine_thresholds (means : gmap string Q) :
  THRESHOLDS = map (fun e : string * Q * direction => e.1) ThresholdTable
  /\ length THRESHOLDS = 9%nat
  /\ Forall (fun e : string * Q * direction => direction_of e.1.1 = e.2)
            ThresholdTable
  /\ threshold_checks means
     = (forallb chk_passed (evaluated_checks means), evaluated_checks means)
  /\ (forall c metric threshold d,
        c ∈ evaluated_checks means ->
        (metric, threshold, d) ∈ ThresholdTable ->
        chk_metric c = metric ->
        means !! metric = Some (chk_actual c)
        /\ chk_threshold c = threshold
        /\ (chk_passed c = true <-> meets d (chk_actual c) threshold))
  /\ ((threshold_checks means).1 = true <->
      forall c, c ∈ (threshold_checks means).2 -> chk_passed c = true).
Proof.
  split; [reflexivity|]. split; [reflexivity|].
  split; [exact table_directions|].
  split; [apply threshold_checks_spec|].
  split.
  - intros c metric threshold d Hc Hin Hm.
    unfold evaluated_checks in Hc. apply list_elem_of_omap in Hc.
    destruct Hc as ([[metric' threshold'] d'] & Hin' & Hev).
    unfold evaluate in Hev. cbn [fst snd] in Hev.
    destruct (means !! metric') as [actual|] eqn:E; [|discriminate].
    injection Hev as <-. cbn [chk_metric chk_actual chk_threshold chk_passed] in *.
    subst metric'.
    assert (Hsame : (threshold', d') = (threshold, d)).
    { clear -Hin Hin'. unfold ThresholdTable in *.
      repeat (apply elem_of_cons in Hin as [Hin|Hin];
              [injection Hin as -> -> ->;
               repeat (apply elem_of_cons in Hin' as [Hin'|Hin'];
                       [first [injection Hin' as <- <-; reflexivity | discriminate Hin']|]);
               inversion Hin'|]).
      inversion Hin. }
    injection Hsame as -> ->.
    split; [exact E|]. split; [reflexivity|]. apply meetsb_meets.
  - rewrite threshold_checks_spec. cbn [fst snd].
    rewrite forallb_forall. split.
    + intros H c Hc. apply H, list_elem_of_In, Hc.
    + intros H c Hc. apply H, list_elem_of_In, Hc.
Qed.

(** *** Column means *)

Lemma union_list_lookup_None (rows : list (gmap string cell)) (col : string) :
  (⋃ rows) !! col = None <-> Forall (fun r : gmap string cell => r !! col = None) rows.
Proof.
  induction rows as [|r rows IH].
  - cbn. rewrite lookup_empty. split; [constructor|reflexivity].
  - cbn [union_list foldr]. rewrite lookup_union_None, Forall_cons, IH.
    reflexivity.
Qed.

Lemma aggregate_means_lookup (rows : list (gmap string cell)) (col : string) :
  aggregate_means rows !! col = column_mean col rows.
Proof.
  unfold aggregate_means. rewrite map_lookup_imap.
  destruct ((⋃ rows) !! col) as [c|] eqn:E; [reflexivity|].
  apply union_list_lookup_None in E. cbn.
  unfold column_mean, is_numeric.
  replace (existsb (fun r : gmap string cell => bool_decide (is_Some (r !! col))) rows)
    with false; [reflexivity|].
  symmetry. induction E as [|r rows Hr _ IH]; [reflexivity|].
  cbn [existsb]. rewrite IH, Hr. reflexivity.
Qed.

Lemma is_numeric_populated (rows : list (gmap string cell)) (col : string) :
  is_numeric col rows = true -> populated col rows <> [].
Proof.
  unfold is_numeric, populated. intros H.
  apply andb_true_iff in H as [Hex Hall].
  apply existsb_exists in Hex as (r & Hr & Hsome).
  rewrite forallb_forall in Hall. specialize (Hall r Hr).
  apply bool_decide_eq_true in Hsome as [c Hc].
  rewrite Hc in Hall. destruct c as [s|x]; [discriminate|].
  intros Hnil.
  assert (Hin : x ∈ omap (fun r : gmap string cell =>
             match r !! col with Some (CFloat x) => Some x | _ => None end) rows).
  { apply list_elem_of_omap. exists r. split; [apply list_elem_of_In, Hr|].
    rewrite Hc. reflexivity. }
  rewrite Hnil in Hin. inversion Hin.
Qed.

Lemma is_numeric_spec (rows : list (gmap string cell)) (col : string) :
  is_numeric col rows = true <->
  (exists r x, r ∈ rows /\ r !! col = Some (CFloat x))
  /\ (forall r s, r ∈ rows -> r !! col <> Some (CStr s)).
Proof.
  unfold is_numeric. rewrite andb_true_iff, existsb_exists, forallb_forall.
  split.
  - intros [(r & Hr & Hsome) Hall].
    assert (Hstr : forall r s, r ∈ rows -> r !! col <> Some (CStr s)).
    { intros r' s Hr' Hs. apply list_elem_of_In in Hr'.
      specialize (Hall r' Hr'). rewrite Hs in Hall. discriminate Hall. }
    split; [|exact Hstr].
    apply list_elem_of_In in Hr.
    apply bool_decide_eq_true in Hsome as [[s|x] Hc].
    + destruct (Hstr r s Hr Hc).
    + exists r, x. split; assumption.
  - intros [(r & x & Hr & Hx) Hstr]. split.
    + exists r. split; [apply list_elem_of_In, Hr|].
      apply bool_decide_eq_true. rewrite Hx. eexists. reflexivity.
    + intros r' Hr'. apply list_elem_of_In in Hr'.
      destruct (r' !! col) as [[s|y]|] eqn:Ec; try reflexivity.
      destruct (Hstr r' s Hr' Ec).
Qed.

Lemma column_mean_skip (before after : list (gmap string cell))
    (e : gmap string cell) (col : string) :
  e !! col = None ->
  populated col (before ++ e :: after) = populated col (before ++ after)
  /\ column_mean col (before ++ e :: after) = column_mean col (before ++ after).
Proof.
  intros He.
  assert (Hp : populated col (before ++ e :: after)
               = populated col (before ++ after)).
  { unfold populated. rewrite !omap_app. cbn [omap list_omap]. rewrite He.
    reflexivity. }
  split; [exact Hp|].
  unfold column_mean. rewrite Hp.
  replace (is_numeric col (before ++ e :: after))
    with (is_numeric col (before ++ after)); [reflexivity|].
  unfold is_numeric. rewrite !existsb_app, !forallb_app.
  cbn [existsb forallb]. rewrite He. reflexivity.
Qed.

Lemma error_row_lookup (eval_id msg col : string) :
  col <> "eval_id" -> col <> "error" -> error_row eval_id msg !! col = None.
Proof.
  intros H1 H2. unfold error_row.
  rewrite lookup_insert_ne by congruence.
  rewrite lookup_insert_ne by congruence.
  apply lookup_empty.
Qed.

Lemma threshold_names :
  Forall (fun e : string * Q => e.1 <> "eval_id" /\ e.1 <> "error") THRESHOLDS.
Proof. repeat constructor; discriminate. Qed.

(** *** The verdict reads the means only at the table's metrics *)

Lemma check_loop_true (means : gmap string Q) (table : list (string * Q))
    (st : bool * list check) :
  (fold_left (check_step means) table st).1 = true <->
  st.1 = true
  /\ forall metric threshold actual,
       (metric, threshold) ∈ table -> means !! metric = Some actual ->
       passes metric actual threshold = true.
Proof.
  revert st. induction table as [|[metric threshold] table IH]; intros st.
  - cbn. split; [|tauto]. intros H. split; [exact H|].
    intros ? ? ? Hin. inversion Hin.
  - cbn [fold_left]. rewrite IH. unfold check_step.
    destruct (means !! metric) as [actual|] eqn:E; cbn [fst snd].
    + split.
      * intros [Hst Hrest].
        destruct (passes metric actual threshold) eqn:Hp; cbn in Hst;
          [|discriminate].
        split; [exact Hst|].
        intros m t a Hin Hm. apply elem_of_cons in Hin as [Heq|Hin].
        -- injection Heq as -> ->. rewrite E in Hm. injection Hm as <-. exact Hp.
        -- eapply Hrest; eauto.
      * intros [Hst Hall]. split.
        -- rewrite (Hall metric threshold actual); [exact Hst| |exact E].
           apply elem_of_cons. left. reflexivity.
        -- intros m t a Hin Hm. apply (Hall m t a); [|exact Hm].
           apply elem_of_cons. right. exact Hin.
    + split.
      * intros [Hst Hrest]. split; [exact Hst|].
        intros m t a Hin Hm. apply elem_of_cons in Hin as [Heq|Hin].
        -- injection Heq as -> ->. congruence.
        -- eapply Hrest; eauto.
      * intros [Hst Hall]. split; [exact Hst|].
        intros m t a Hin Hm. apply (Hall m t a); [|exact Hm].
        apply elem_of_cons. right. exact Hin.
Qed.

Lemma check_loop_ext (m1 m2 : gmap string Q) (table : list (string * Q))
    (st : bool * list check) :
  Forall (fun e : string * Q => m1 !! e.1 = m2 !! e.1) table ->
  fold_left (check_step m1) table st = fold_left (check_step m2) table st.
Proof.
  intros H. revert st.
  induction H as [|[metric threshold] table He _ IH]; intros st; [reflexivity|].
  cbn [fold_left]. rewrite IH. f_equal.
  unfold check_step. cbn [fst] in He. rewrite He. reflexivity.
Qed.

Lemma check_pass_fail_skip (before after : list (gmap string cell))
    (e : gmap string cell) :
  Forall (fun t : string * Q => e !! t.1 = None) THRESHOLDS ->
  check_pass_fail (before ++ e :: after) = check_pass_fail (before ++ after).
Proof.
  intros He. unfold check_pass_fail, threshold_checks. f_equal.
  apply check_loop_ext.
  eapply Forall_impl; [exact He|].
  intros [metric threshold] Hm. cbn [fst] in *.
  rewrite !aggregate_means_lookup.
  apply (column_mean_skip before after e metric Hm).
Qed.

(** C7: every numeric column that some row populates has a mean, and no
    other column has one; the mean is taken over the rows that populate the
    column; a row with only [eval_id] and [error] adds nothing to any
    numeric mean (it is no zero) and leaves the verdict as it is; a metric
    without a mean is skipped, so the verdict is a pass when no metric
    column exists. *)
Theorem gate_means_skip_error_rows :
  (forall (rows : list (gmap string cell)) (col : string) (mu : Q),
      aggregate_means rows !! col = Some mu ->
      populated col rows <> []
      /\ mu = (sum_Q (populated col rows)
               / inject_Z (Z.of_nat (length (populated col rows))))%Q)
  /\ (forall (rows : list (gmap string cell)) (col : string),
        ((exists r x, r ∈ rows /\ r !! col = Some (CFloat x))
         /\ (forall r s, r ∈ rows -> r !! col <> Some (CStr s)))
        <-> aggregate_means rows !! col
            = Some (sum_Q (populated col rows)
                    / inject_Z (Z.of_nat (length (populated col rows))))%Q)
  /\ (forall (rows : list (gmap string cell)) (col : string) (x : Q),
        x ∈ populated col rows <->
        exists r, r ∈ rows /\ r !! col = Some (CFloat x))
  /\ (forall (before after : list (gmap string cell)) (eval_id msg col : string),
        col <> "eval_id" -> col <> "error" ->
        populated col (before ++ error_row eval_id msg :: after)
        = populated col (before ++ after)
        /\ aggregate_means (before ++ error_row eval_id msg :: after) !! col
           = aggregate_means (before ++ after) !! col)
  /\ (forall (before after : list (gmap string cell)) (eval_id msg : string),
        check_pass_fail (before ++ error_row eval_id msg :: after)
        = check_pass_fail (before ++ after))
  /\ (forall means : gmap string Q,
        (threshold_checks means).1 = true <->
        forall metric threshold actual,
          (metric, threshold) ∈ THRESHOLDS ->
          means !! metric = Some actual ->
          passes metric actual threshold = true)
  /\ (forall rows : list (gmap string cell),
        (forall r metric threshold,
            r ∈ rows -> (metric, threshold) ∈ THRESHOLDS -> r !! metric = None) ->
        check_pass_fail rows = true).
Proof.
  split; [|split; [|split; [|split; [|split; [|split]]]]].
  - intros rows col mu. rewrite aggregate_means_lookup. unfold column_mean.
    destruct (is_numeric col rows) eqn:E; [|discriminate].
    intros [= <-]. split; [|reflexivity].
    apply is_numeric_populated, E.
  - intros rows col. rewrite aggregate_means_lookup, <- is_numeric_spec.
    unfold column_mean. destruct (is_numeric col rows); split;
      first [reflexivity | discriminate].
  - intros rows col x. unfold populated. rewrite list_elem_of_omap.
    split.
    + intros (r & Hr & Hx). exists r. split; [exact Hr|].
      destruct (r !! col) as [[s|y]|]; try discriminate.
      injection Hx as ->. reflexivity.
    + intros (r & Hr & Hx). exists r. split; [exact Hr|].
      rewrite Hx. reflexivity.
  - intros before after eval_id msg col H1 H2.
    rewrite !aggregate_means_lookup.
    apply column_mean_skip, error_row_lookup; assumption.
  - intros before after eval_id msg. apply check_pass_fail_skip.
    eapply Forall_impl; [exact threshold_names|].
    intros [metric threshold] [H1 H2]. apply error_row_lookup; assumption.
  - intros means. unfold threshold_checks. rewrite check_loop_true.
    cbn [fst]. tauto.
  - intros rows H. unfold check_pass_fail, threshold_checks.
    apply check_loop_true. split; [reflexivity|].
    intros metric threshold actual Hin Hm. exfalso.
    rewrite aggregate_means_lookup in Hm. unfold column_mean in Hm.
    destruct (is_numeric metric rows) eqn:E; [|discriminate].
    unfold is_numeric in E. apply andb_true_iff in E as [Hex _].
    apply existsb_exists in Hex as (r & Hr & Hs).
    apply bool_decide_eq_true in Hs as [c Hc].
    rewrite (H r metric threshold) in Hc;
      [discriminate | apply list_elem_of_In; exact Hr | exact Hin].
Qed.

Lemma aggregate_means_absent (rows : list (gmap string cell)) (col : string) :
  Forall (fun r : gmap string cell => r !! col = None) rows ->
  aggregate_means rows !! col = None.
Proof.
  intros H. unfold aggregate_means. rewrite map_lookup_imap.
  apply union_list_lookup_None in H. rewrite H. reflexivity.
Qed.

(** A mean that sits on its threshold passes, in both directions. *)
Example scenario_boundary_is_inclusive :
  (threshold_checks Sample.boundary_means).1 = true
  /\ length (threshold_checks Sample.boundary_means).2 = 9%nat
  /\ threshold_checks {[ "clarity_mae" := 0.5%Q ]}
     = (true, [mkCheck "clarity_mae" 0.5%Q 0.5%Q true])
  /\ threshold_checks {[ "clarity_mae" := 0.51%Q ]}
     = (false, [mkCheck "clarity_mae" 0.51%Q 0.5%Q false])
  /\ threshold_checks {[ "bias_within_1" := 0.80%Q ]}
     = (true, [mkCheck "bias_within_1" 0.80%Q 0.80%Q true]).
Proof. repeat split. Qed.

(** An error row is no row of zeros: the mean of one success and one
    failure is the success's value. *)
Example scenario_error_row_is_not_zero :
  aggregate_means [ {[ "eval_id" := CStr "a"; "clarity_mae" := CFloat 1%Q ]};
                    error_row "b" "scoring failed" ] !! "clarity_mae"
  = Some (1 / 1)%Q.
Proof. reflexivity. Qed.

End GateFacts.

(** ** The eval runner *)

Module RunnerFacts.
Import Runner.

Section facts.

Variable world : Type.
Variable score_document : string -> world -> outcome ScoringResult * world.

Local Abbreviation run_loop := (run_loop world score_document).
Local Abbreviation run_evals := (run_evals world score_document).
Local Abbreviation run_case := (run_case world score_document).
Local Abbreviation try_case := (try_case world score_document).

Lemma run_loop_acc (dataset : list EvalCase) (results : list (gmap string cell))
    (w : world) :
  run_loop dataset results w
  = ((rows <~ (run_loop dataset [] w).1 ;; Returns (results ++ rows)),
     (run_loop dataset [] w).2).
Proof.
  revert results w. induction dataset as [|c cs IH]; intros results w.
  - cbn. rewrite app_nil_r. reflexivity.
  - cbn [Runner.run_loop]. destruct (case_id c) as [eval_id|]; cbn [subscript].
    + destruct (run_case eval_id c w) as [row w1].
      rewrite (IH (results ++ [row])), (IH ([] ++ [row])). cbn [fst snd].
      destruct (run_loop cs [] w1).1 as [rows|e]; cbn [obind]; [|reflexivity].
      rewrite <- app_assoc. reflexivity.
    + reflexivity.
Qed.

Lemma run_evals_cons (c : EvalCase) (cs : list EvalCase) (w : world) :
  run_evals (c :: cs) w
  = match case_id c with
    | None => (Raises (KeyError "id"), w)
    | Some eval_id =>
        ((rows <~ (run_evals cs (run_case eval_id c w).2).1 ;;
          Returns ((run_case eval_id c w).1 :: rows)),
         (run_evals cs (run_case eval_id c w).2).2)
    end.
Proof.
  unfold Runner.run_evals. cbn [Runner.run_loop].
  destruct (case_id c) as [eval_id|]; cbn [subscript]; [|reflexivity].
  destruct (run_case eval_id c w) as [row w1]. cbn [fst snd].
  rewrite run_loop_acc. reflexivity.
Qed.

Lemma flatten_eval_id (eval_id : string) (metrics : EvalMetrics) :
  flatten eval_id metrics !! "eval_id" = Some (CStr eval_id).
Proof.
  unfold flatten, attr_items, attributes. cbn [map fold_left attr_name].
  repeat (rewrite lookup_insert_ne by discriminate).
  apply lookup_insert_eq.
Qed.

Lemma run_case_eval_id (eval_id : string) (c : EvalCase) (w : world) :
  (run_case eval_id c w).1 !! "eval_id" = Some (CStr eval_id).
Proof.
  unfold Runner.run_case.
  destruct (try_case eval_id c w) as [[row|e] w1] eqn:E; cbn [fst].
  - unfold Runner.try_case in E.
    destruct (case_document c) as [doc|]; cbn in E; [|discriminate].
    destruct (score_document doc w) as [[pred|e] w2]; cbn in E; [|discriminate].
    destruct (case_expected_output c) as [ex|]; cbn in E; [|discriminate].
    destruct (Metrics.calculate_eval_metrics pred ex) as [m|e]; cbn in E;
      [|discriminate].
    injection E as <- _. apply flatten_eval_id.
  - unfold error_row. rewrite lookup_insert_ne by discriminate.
    apply lookup_insert_eq.
Qed.

Lemma run_evals_rows (dataset : list EvalCase) (w : world) :
  Forall (fun c => is_Some (case_id c)) dataset ->
  exists rows w',
    run_evals dataset w = (Returns rows, w')
    /\ length rows = length dataset
    /\ forall (i : nat) c eval_id,
         dataset !! i = Some c -> case_id c = Some eval_id ->
         rows !! i
         = Some (run_case eval_id c (run_evals (take i dataset) w).2).1.
Proof.
  intros H. revert w.
  induction H as [|c cs [eval_id Hid] _ IH]; intros w.
  - exists [], w. split; [reflexivity|]. split; [reflexivity|].
    intros i c eval_id Hi. destruct i; discriminate.
  - destruct (IH (run_case eval_id c w).2) as (rows & w' & Hrun & Hlen & Hrows).
    exists ((run_case eval_id c w).1 :: rows), w'.
    split; [|split].
    + rewrite run_evals_cons, Hid, Hrun. reflexivity.
    + cbn [length]. rewrite Hlen. reflexivity.
    + intros [|i] c' eval_id' Hi Hid'.
      * injection Hi as <-. rewrite Hid in Hid'. injection Hid' as <-.
        reflexivity.
      * cbn [take]. rewrite run_evals_cons, Hid. cbn [snd].
        apply (Hrows i c' eval_id' Hi Hid').
Qed.

Lemma run_evals_missing_id (before after : list EvalCase) (c : EvalCase)
    (w : world) :
  Forall (fun c => is_Some (case_id c)) before ->
  case_id c = None ->
  (run_evals (before ++ c :: after) w).1 = Raises (KeyError "id").
Proof.
  intros H Hc. revert w.
  induction H as [|b bs [eval_id Hid] _ IH]; intros w.
  - cbn [app]. rewrite run_evals_cons, Hc. reflexivity.
  - cbn [app]. rewrite run_evals_cons, Hid. cbn [fst]. rewrite IH. reflexivity.
Qed.

(** *** The column names of the rows *)

Lemma flatten_extraction_column (eval_id : string) (metrics : EvalMetrics) :
  flatten eval_id metrics !! "extraction_acc"
  = Some (CFloat (extraction_accuracy metrics))
  /\ flatten eval_id metrics !! "extraction_accuracy" = None.
Proof.
  unfold flatten, attr_items, attributes. cbn [map fold_left attr_name].
  split.
  - repeat (rewrite lookup_insert_ne by discriminate).
    apply lookup_insert_eq.
  - repeat (rewrite lookup_insert_ne by discriminate).
    apply lookup_empty.
Qed.

Lemma run_case_lacks_extraction_accuracy (eval_id : string) (c : EvalCase)
    (w : world) :
  (run_case eval_id c w).1 !! "extraction_accuracy" = None.
Proof.
  unfold Runner.run_case.
  destruct (try_case eval_id c w) as [[row|e] w1] eqn:E; cbn [fst].
  - unfold Runner.try_case in E.
    destruct (case_document c) as [doc|]; cbn in E; [|discriminate].
    destruct (score_document doc w) as [[pred|e] w2]; cbn in E; [|discriminate].
    destruct (case_expected_output c) as [ex|]; cbn in E; [|discriminate].
    destruct (Metrics.calculate_eval_metrics pred ex) as [m|e]; cbn in E;
      [|discriminate].
    injection E as <- _. apply flatten_extraction_column.
  - unfold error_row. rewrite !lookup_insert_ne by discriminate.
    apply lookup_empty.
Qed.

Lemma run_loop_lacks_extraction_accuracy (dataset : list EvalCase)
    (results rows : list (gmap string cell)) (w w' : world) :
  Forall (fun r : gmap string cell => r !! "extraction_accuracy" = None) results ->
  run_loop dataset results w = (Returns rows, w') ->
  Forall (fun r : gmap string cell => r !! "extraction_accuracy" = None) rows.
Proof.
  revert results w. induction dataset as [|c cs IH]; intros results w Hres.
  - cbn. intros [= <- _]. exact Hres.
  - cbn [Runner.run_loop].
    destruct (case_id c) as [eval_id|]; cbn [subscript]; [|discriminate].
    destruct (run_case eval_id c w) as [row w1] eqn:E.
    apply IH. apply Forall_app. split; [exact Hres|].
    constructor; [|constructor].
    pose proof (run_case_lacks_extraction_accuracy eval_id c w) as H.
    rewrite E in H. exact H.
Qed.

End facts.

Lemma sample_dataset_has_ids :
  Forall (fun c => is_Some (case_id c)) Sample.dataset.
Proof. repeat constructor; eexists; reflexivity. Qed.

(** The sample run: six rows for six cases, the four failures each demoted
    to its error row, five scoring calls made. *)
Example sample_run_rows :
  (run_evals nat Sample.scorer Sample.dataset 0%nat).2 = 5%nat
  /\ (rows <~ (run_evals nat Sample.scorer Sample.dataset 0%nat).1 ;;
      Returns (map (fun r : gmap string cell => (r !! "eval_id", r !! "error"))
                   rows))
     = Returns
         [ (Some (CStr "case-1"), None);
           (Some (CStr "case-2"), Some (CStr "scoring failed"));
           (Some (CStr "case-3"), Some (CStr "'document'"));
           (Some (CStr "case-4"), Some (CStr "'expected_output'"));
           (Some (CStr "case-5"), Some (CStr "'questions'"));
           (Some (CStr "case-6"), None) ].
Proof. vm_compute. split; reflexivity. Qed.

(** C4: when every entry carries its [id], a case whose scoring or metrics
    computation raises yields the row [{eval_id, error}] and nothing else,
    the loop goes on with the next case, and the runner returns one row
    per case, in the order of the dataset. *)
Theorem run_evals_isolates_case_failures
    (world : Type)
    (score_document : string -> world -> outcome ScoringResult * world)
    (dataset : list EvalCase) (w : world) :
  Forall (fun c => is_Some (case_id c)) dataset ->
  exists rows w',
    run_evals world score_document dataset w = (Returns rows, w')
    /\ length rows = length dataset
    /\ (forall (i : nat) c,
          dataset !! i = Some c ->
          exists row, rows !! i = Some row
                      /\ row !! "eval_id" = CStr <$> case_id c)
    /\ (forall (i : nat) c eval_id,
          dataset !! i = Some c -> case_id c = Some eval_id ->
          rows !! i
          = Some match (try_case world score_document eval_id c
                          (run_evals world score_document (take i dataset) w).2).1
                 with
                 | Returns row => row
                 | Raises e => error_row eval_id (exn_str e)
                 end)
    /\ (forall eval_id c document w0 e w1,
          case_document c = Some document ->
          score_document document w0 = (Raises e, w1) ->
          try_case world score_document eval_id c w0 = (Raises e, w1))
    /\ (forall eval_id c document w0 predicted w1 expected e,
          case_document c = Some document ->
          score_document document w0 = (Returns predicted, w1) ->
          case_expected_output c = Some expected ->
          Metrics.calculate_eval_metrics predicted expected = Raises e ->
          try_case world score_document eval_id c w0 = (Raises e, w1))
    /\ (forall eval_id msg,
          dom (error_row eval_id msg) = {[ "eval_id"; "error" ]}
          /\ error_row eval_id msg !! "eval_id" = Some (CStr eval_id)
          /\ error_row eval_id msg !! "error" = Some (CStr msg)).
Proof.
  intros H.
  destruct (run_evals_rows world score_document dataset w H)
    as (rows & w' & Hrun & Hlen & Hrows).
  exists rows, w'.
  split; [exact Hrun|]. split; [exact Hlen|].
  split; [|split; [|split; [|split]]].
  - intros i c Hi.
    assert (Hc : is_Some (case_id c)).
    { rewrite Forall_forall in H. apply H.
      eapply list_elem_of_lookup_2, Hi. }
    destruct Hc as [eval_id Hid].
    eexists. split; [apply (Hrows i c eval_id Hi Hid)|].
    rewrite Hid. apply run_case_eval_id.
  - intros i c eval_id Hi Hid. rewrite (Hrows i c eval_id Hi Hid).
    unfold run_case.
    destruct (try_case world score_document eval_id c _) as [[row|e] w1];
      reflexivity.
  - intros eval_id c document w0 e w1 Hdoc Hscore.
    unfold try_case. rewrite Hdoc. cbn [subscript]. rewrite Hscore.
    reflexivity.
  - intros eval_id c document w0 predicted w1 expected e Hdoc Hscore Hexp Hm.
    unfold try_case. rewrite Hdoc. cbn [subscript]. rewrite Hscore, Hexp.
    cbn [subscript obind]. rewrite Hm. reflexivity.
  - intros eval_id msg. unfold error_row. split.
    + rewrite !dom_insert_L, dom_empty_L. set_solver.
    + split.
      * rewrite lookup_insert_ne by discriminate. apply lookup_insert_eq.
      * apply lookup_insert_eq.
Qed.

Lemma run_evals_isolates_case_failures_witness :
  Forall (fun c => is_Some (case_id c)) Sample.dataset
  /\ exists rows w',
       run_evals nat Sample.scorer Sample.dataset 0%nat = (Returns rows, w')
       /\ length rows = length Sample.dataset
       /\ forall (i : nat) c,
            Sample.dataset !! i = Some c ->
            exists row, rows !! i = Some row
                        /\ row !! "eval_id" = CStr <$> case_id c.
Proof.
  split; [exact sample_dataset_has_ids|].
  destruct (run_evals_isolates_case_failures nat Sample.scorer Sample.dataset
              0%nat sample_dataset_has_ids)
    as (rows & w' & Hrun & Hlen & Hids & _).
  exists rows, w'. split; [exact Hrun|]. split; [exact Hlen|exact Hids].
Defined.

(** C8 on the code: an entry without [id] is not demoted to an error row;
    [eval_case["id"]] raises outside the [try] block and the run ends with
    [KeyError('id')], the rows of the other cases lost. *)
Theorem run_evals_aborts_on_missing_id :
  run_evals nat Sample.scorer Sample.dataset_without_id 0%nat
  = (Raises (KeyError "id"), 1%nat).
Proof. vm_compute. reflexivity. Qed.

(** The runner stores the extraction accuracy in the column
    [extraction_acc]; the threshold table names [extraction_accuracy].  On
    the rows of [run_evals] the means table therefore has no
    [extraction_accuracy] entry, and the gate never evaluates that
    threshold. *)
Theorem runner_rows_skip_extraction_threshold
    (world : Type)
    (score_document : string -> world -> outcome ScoringResult * world)
    (dataset : list EvalCase) (w w' : world)
    (rows : list (gmap string cell)) :
  run_evals world score_document dataset w = (Returns rows, w') ->
  Gate.aggregate_means rows !! "extraction_accuracy" = None
  /\ Forall (fun c => Gate.chk_metric c <> "extraction_accuracy")
            (Gate.threshold_checks (Gate.aggregate_means rows)).2.
Proof.
  intros Hrun.
  assert (Hnone : Gate.aggregate_means rows !! "extraction_accuracy" = None).
  { apply GateFacts.aggregate_means_absent.
    eapply run_loop_lacks_extraction_accuracy; [|exact Hrun]. constructor. }
  split; [exact Hnone|].
  rewrite GateFacts.threshold_checks_spec. cbn [snd].
  apply Forall_forall. intros c Hc.
  unfold GateSpec.evaluated_checks in Hc. apply list_elem_of_omap in Hc.
  destruct Hc as (entry & _ & Hev). unfold GateSpec.evaluate in Hev.
  destruct (Gate.aggregate_means rows !! entry.1.1) as [actual|] eqn:E;
    [|discriminate].
  injection Hev as <-. cbn [Gate.chk_metric]. intros Heq.
  rewrite Heq in E. congruence.
Qed.

Lemma runner_rows_skip_extraction_threshold_witness :
  exists rows w',
    run_evals nat Sample.scorer Sample.dataset 0%nat = (Returns rows, w')
    /\ Gate.aggregate_means rows !! "extraction_accuracy" = None.
Proof.
  destruct (run_evals_rows nat Sample.scorer Sample.dataset 0%nat
              sample_dataset_has_ids) as (rows & w' & Hrun & _).
  exists rows, w'. split; [exact Hrun|].
  exact (proj1 (runner_rows_skip_extraction_threshold nat Sample.scorer
                  Sample.dataset 0%nat w' rows Hrun)).
Defined.

(** On the sample run the gate evaluates eight checks, and the mean of
    [extraction_acc] is left unchecked. *)
Example sample_run_gate :
  (rows <~ (run_evals nat Sample.scorer Sample.dataset 0%nat).1 ;;
   Returns (map Gate.chk_metric
                (Gate.threshold_checks (Gate.aggregate_means rows)).2,
            bool_decide (is_Some (Gate.aggregate_means rows !! "extraction_acc"))))
  = Returns
      ([ "clarity_mae"; "specificity_mae"; "bias_mae"; "actionability_mae";
         "clarity_within_1"; "specificity_within_1"; "bias_within_1";
         "actionability_within_1" ],
       true).
Proof. vm_compute. reflexivity. Qed.

End RunnerFacts.

(** ** The scorer *)

Module ScorerFacts.
Import Scorer SectionSpec.

Section facts.

Variable env : environment.

Local Abbreviation parse_row := (parse_row env).
Local Abbreviation parse_rows := (parse_rows env).
Local Abbreviation row_int := (row_int env).

(** The state a successful iteration leaves. *)
Lemma parse_row_Returns (qs : list (Question_of field))
    (ss : gmap field (attr_dict (list Z))) (row : gmap string field)
    (st' : list (Question_of field) * gmap field (attr_dict (list Z))) :
  parse_row (qs, ss) row = Returns st' ->
  exists q,
    st' = (qs ++ [q],
           alter (append_score Actionability (actionability q)) (section q)
             (alter (append_score Bias (bias q)) (section q)
                (alter (append_score Specificity (specificity q)) (section q)
                   (alter (append_score Clarity (clarity q)) (section q)
                      match ss !! section q with
                      | None => <[section q := AttrDict [] [] [] []]> ss
                      | Some _ => ss
                      end)))).
Proof.
  unfold Scorer.parse_row.
  destruct (row !! "Section") as [sec|]; cbn [subscript obind]; [|discriminate].
  destruct (row_int row "Question_Number") as [num|]; cbn [obind]; [|discriminate].
  destruct (row !! "Question_Text") as [text|]; cbn [subscript obind]; [|discriminate].
  destruct (row_int row "Clarity") as [c|]; cbn [obind]; [|discriminate].
  destruct (row_int row "Specificity") as [s|]; cbn [obind]; [|discriminate].
  destruct (row_int row "Bias") as [b|]; cbn [obind]; [|discriminate].
  destruct (row_int row "Actionability") as [a|]; cbn [obind]; [|discriminate].
  intros [= <-]. exists (mkQuestion sec num text c s b a). reflexivity.
Qed.

Lemma section_questions_snoc_same (q : Question_of field) (qs : list (Question_of field)) :
  section_questions (section q) (qs ++ [q])
  = section_questions (section q) qs ++ [q].
Proof.
  unfold section_questions. rewrite filter_app.
  rewrite (filter_cons_True _ q []) by reflexivity. reflexivity.
Qed.

Lemma section_questions_snoc_other (s : field) (q : Question_of field)
    (qs : list (Question_of field)) :
  s <> section q ->
  section_questions s (qs ++ [q]) = section_questions s qs.
Proof.
  intros Hne. unfold section_questions. rewrite filter_app.
  rewrite (filter_cons_False _ q []) by congruence.
  rewrite filter_nil, app_nil_r. reflexivity.
Qed.

Lemma append_scores_snoc (q : Question_of field) (qs : list (Question_of field)) :
  append_score Actionability (actionability q)
    (append_score Bias (bias q)
       (append_score Specificity (specificity q)
          (append_score Clarity (clarity q)
             (section_scores_of (section q) qs))))
  = section_scores_of (section q) (qs ++ [q]).
Proof.
  unfold section_scores_of. rewrite section_questions_snoc_same.
  unfold append_score, attr_tabulate. cbn [d_clarity d_specificity d_bias
    d_actionability]. rewrite !map_app. reflexivity.
Qed.

Lemma parse_row_agree (qs qs' : list (Question_of field))
    (ss ss' : gmap field (attr_dict (list Z))) (row : gmap string field) :
  scores_agree qs ss ->
  parse_row (qs, ss) row = Returns (qs', ss') ->
  scores_agree qs' ss'.
Proof.
  intros Hagree Hrow.
  apply parse_row_Returns in Hrow as (q & Heq). injection Heq as -> ->.
  intros s. destruct (decide (s = section q)) as [->|Hne].
  - rewrite !lookup_alter_eq, section_questions_snoc_same.
    assert (Hinit : match ss !! section q with
                    | None => <[section q := AttrDict [] [] [] []]> ss
                    | Some _ => ss
                    end !! section q
                    = Some (section_scores_of (section q) qs)).
    { specialize (Hagree (section q)). unfold section_scores_of in *.
      destruct (section_questions (section q) qs) as [|q0 l].
      - rewrite Hagree, lookup_insert_eq. reflexivity.
      - rewrite Hagree. exact Hagree. }
    rewrite Hinit. cbn [fmap option_fmap option_map].
    rewrite append_scores_snoc.
    destruct (section_questions (section q) qs); reflexivity.
  - rewrite !lookup_alter_ne by congruence.
    assert (Hsame : section_scores_of s (qs ++ [q]) = section_scores_of s qs).
    { unfold section_scores_of.
      rewrite section_questions_snoc_other by exact Hne. reflexivity. }
    rewrite Hsame, section_questions_snoc_other by exact Hne.
    rewrite <- (Hagree s).
    destruct (ss !! section q); [reflexivity|].
    apply lookup_insert_ne. congruence.
Qed.

Lemma parse_rows_agree (rows : list (gmap string field))
    (qs qs' : list (Question_of field)) (ss ss' : gmap field (attr_dict (list Z))) :
  scores_agree qs ss ->
  parse_rows rows (qs, ss) = Returns (qs', ss') ->
  scores_agree qs' ss'.
Proof.
  revert qs ss. induction rows as [|row rows IH]; intros qs ss Hagree.
  - cbn. intros [= <- <-]. exact Hagree.
  - cbn [Scorer.parse_rows].
    destruct (parse_row (qs, ss) row) as [[qs1 ss1]|e] eqn:E; cbn [obind];
      [|discriminate].
    apply IH. eapply parse_row_agree; eauto.
Qed.

Lemma scores_agree_empty : scores_agree (T := field) [] ∅.
Proof. intros s. apply lookup_empty. Qed.

(** *** The averages *)

Lemma average_Returns (vals : list Z) (avg : Q) :
  average vals = Returns avg ->
  vals <> []
  /\ avg = (inject_Z (Metrics.sum_Z vals) / inject_Z (Z.of_nat (length vals)))%Q.
Proof.
  destruct vals as [|v vals]; [discriminate|].
  intros [= <-]. split; [discriminate|reflexivity].
Qed.

Lemma section_average_Returns (scores : attr_dict (list Z)) (avg : attr_dict Q) :
  section_average scores = Returns avg ->
  forall a : attribute,
    attr_get scores a <> []
    /\ attr_get avg a
       = (inject_Z (Metrics.sum_Z (attr_get scores a))
          / inject_Z (Z.of_nat (length (attr_get scores a))))%Q.
Proof.
  unfold section_average.
  destruct (average (d_clarity scores)) as [c|] eqn:Ec; cbn [obind]; [|discriminate].
  destruct (average (d_specificity scores)) as [s|] eqn:Es; cbn [obind]; [|discriminate].
  destruct (average (d_bias scores)) as [b|] eqn:Eb; cbn [obind]; [|discriminate].
  destruct (average (d_actionability scores)) as [a|] eqn:Ea; cbn [obind]; [|discriminate].
  intros [= <-] attr.
  destruct attr; cbn [attr_get d_clarity d_specificity d_bias d_actionability];
    apply average_Returns; assumption.
Qed.

Lemma averages_loop_lookup (items : list (field * attr_dict (list Z)))
    (acc R : gmap field (attr_dict Q)) :
  NoDup items.*1 ->
  averages_loop items acc = Returns R ->
  forall s : field,
    (forall d, (s, d) ∈ items ->
               exists avg, section_average d = Returns avg /\ R !! s = Some avg)
    /\ (s ∉ items.*1 -> R !! s = acc !! s).
Proof.
  revert acc. induction items as [|[s0 d0] items IH]; intros acc Hnd Hloop s.
  - cbn in Hloop. injection Hloop as <-. split; [|reflexivity].
    intros d Hin. inversion Hin.
  - cbn [averages_loop] in Hloop.
    destruct (section_average d0) as [avg0|] eqn:E0; cbn [obind] in Hloop;
      [|discriminate].
    cbn [fmap list_fmap fst] in Hnd. apply NoDup_cons in Hnd as [Hs0 Hnd].
    destruct (IH _ Hnd Hloop s) as [IH1 IH2].
    split.
    + intros d Hin. apply elem_of_cons in Hin as [Heq|Hin].
      * injection Heq as -> ->. exists avg0. split; [exact E0|].
        destruct (IH _ Hnd Hloop s0) as [_ IH0].
        rewrite (IH0 Hs0). apply lookup_insert_eq.
      * apply IH1, Hin.
    + intros Hnot. cbn [fmap list_fmap fst] in Hnot.
      apply not_elem_of_cons in Hnot as [Hne Hnot].
      rewrite (IH2 Hnot). apply lookup_insert_ne. congruence.
Qed.

Lemma averages_of_agree (qs : list (Question_of field))
    (ss : gmap field (attr_dict (list Z))) (R : gmap field (attr_dict Q)) :
  scores_agree qs ss ->
  averages_loop (map_to_list ss) ∅ = Returns R ->
  forall s : field,
    match section_questions s qs with
    | [] => R !! s = None
    | _ => exists avg, R !! s = Some avg
                       /\ section_average (section_scores_of s qs) = Returns avg
    end.
Proof.
  intros Hagree Hloop s.
  destruct (averages_loop_lookup _ _ _ (NoDup_fst_map_to_list ss) Hloop s)
    as [Hin Hout].
  specialize (Hagree s).
  destruct (section_questions s qs) as [|q0 l].
  - rewrite Hout; [apply lookup_empty|].
    intros Hs. apply list_elem_of_fmap in Hs as ([s' d] & Heq & Hd).
    cbn [fst] in Heq. subst s'. apply elem_of_map_to_list in Hd. congruence.
  - apply elem_of_map_to_list in Hagree.
    destruct (Hin _ Hagree) as (avg & Havg & HR). exists avg. auto.
Qed.

Lemma parse_csv_output_sections (csv_text : string) (r : ScoringResult_of field) :
  _parse_csv_output env csv_text = Returns r ->
  (forall s : field,
      s ∈ dom (section_averages r) <->
      exists q, q ∈ questions r /\ section q = s)
  /\ (forall (s : field) (avg : attr_dict Q) (a : attribute),
        section_averages r !! s = Some avg ->
        section_questions s (questions r) <> []
        /\ attr_get avg a
           = (inject_Z (Metrics.sum_Z
                          (map (fun q => score q a)
                               (section_questions s (questions r))))
              / inject_Z (Z.of_nat
                            (length (section_questions s (questions r)))))%Q).
Proof.
  unfold Scorer._parse_csv_output. cbn zeta.
  destruct (parse_rows (dict_reader env csv_text).1 ([], ∅)) as [[qs ss]|] eqn:Ep;
    cbn [obind]; [|discriminate].
  destruct (reader_end (dict_reader env csv_text).2) as [u|]; cbn [obind];
    [|discriminate].
  destruct (averages_loop (map_to_list ss) ∅) as [R|] eqn:Ea; cbn [obind];
    [|discriminate].
  intros [= <-]. cbn [questions section_averages].
  pose proof (parse_rows_agree _ _ _ _ _ scores_agree_empty Ep) as Hagree.
  pose proof (averages_of_agree _ _ _ Hagree Ea) as HR.
  split.
  - intros s. rewrite elem_of_dom. specialize (HR s). split.
    + intros [avg Havg].
      destruct (section_questions s qs) as [|q0 l] eqn:Eq; [congruence|].
      exists q0.
      assert (Hq0 : q0 ∈ section_questions s qs) by (rewrite Eq; left).
      unfold section_questions in Hq0. apply list_elem_of_filter in Hq0.
      tauto.
    + intros (q & Hq & Hs).
      assert (Hin : q ∈ section_questions s qs).
      { unfold section_questions. apply list_elem_of_filter. auto. }
      destruct (section_questions s qs) as [|q0 l]; [inversion Hin|].
      destruct HR as (avg & -> & _). eexists. reflexivity.
  - intros s avg a Hs. specialize (HR s).
    destruct (section_questions s qs) as [|q0 l] eqn:Eq; [congruence|].
    split; [discriminate|].
    destruct HR as (avg' & Havg' & Hsec). rewrite Hs in Havg'.
    injection Havg' as <-.
    destruct (section_average_Returns _ _ Hsec a) as [_ ->].
    unfold section_scores_of. rewrite MetricsFacts.attr_get_tabulate, Eq.
    rewrite length_map. reflexivity.
Qed.

(** *** What [_parse_csv_output] can raise *)

Lemma int_Raises (v : field) (e : exn) :
  int env v = Raises e ->
  match v with
  | None => int_none_error e
  | Some _ => int_error e
  end.
Proof.
  unfold Scorer.int. destruct v as [text|].
  - destruct (py_int env text) as [z| |limit digits]; [discriminate| |];
      intros [= <-]; [left|right]; repeat eexists.
  - intros [= <-]. reflexivity.
Qed.

Lemma row_int_Raises (row : gmap string field) (key : string) (e : exn) :
  row_int row key = Raises e ->
  e = KeyError key \/ int_error e \/ int_none_error e.
Proof.
  unfold Scorer.row_int.
  destruct (row !! key) as [v|]; cbn [subscript obind].
  - intros Hint. apply int_Raises in Hint. destruct v; tauto.
  - intros [= <-]. left. reflexivity.
Qed.

Lemma row_int_row_error (row : gmap string field) (key : string) (e : exn) :
  row_int row key = Raises e -> row_error e.
Proof.
  intros Hrow. apply row_int_Raises in Hrow as [->|Hrow]; [left|right; exact Hrow].
  eexists. reflexivity.
Qed.

Lemma parse_row_Raises (st : list (Question_of field) * gmap field (attr_dict (list Z)))
    (row : gmap string field) (e : exn) :
  parse_row st row = Raises e -> row_error e.
Proof.
  destruct st as [qs ss]. unfold Scorer.parse_row.
  destruct (row !! "Section") as [sec|]; cbn [subscript obind];
    [|intros [= <-]; left; eexists; reflexivity].
  destruct (row_int row "Question_Number") as [num|] eqn:E1; cbn [obind];
    [|intros [= <-]; eapply row_int_row_error, E1].
  destruct (row !! "Question_Text") as [text|]; cbn [subscript obind];
    [|intros [= <-]; left; eexists; reflexivity].
  destruct (row_int row "Clarity") as [c|] eqn:E2; cbn [obind];
    [|intros [= <-]; eapply row_int_row_error, E2].
  destruct (row_int row "Specificity") as [s|] eqn:E3; cbn [obind];
    [|intros [= <-]; eapply row_int_row_error, E3].
  destruct (row_int row "Bias") as [b|] eqn:E4; cbn [obind];
    [|intros [= <-]; eapply row_int_row_error, E4].
  destruct (row_int row "Actionability") as [a|] eqn:E5; cbn [obind];
    [|intros [= <-]; eapply row_int_row_error, E5].
  discriminate.
Qed.

Lemma parse_rows_Raises (rows : list (gmap string field))
    (st : list (Question_of field) * gmap field (attr_dict (list Z))) (e : exn) :
  parse_rows rows st = Raises e -> row_error e.
Proof.
  revert st. induction rows as [|row rows IH]; intros st; [discriminate|].
  cbn [Scorer.parse_rows].
  destruct (parse_row st row) as [st'|e'] eqn:E; cbn [obind].
  - apply IH.
  - intros [= <-]. eapply parse_row_Raises, E.
Qed.

Lemma section_average_of_questions (s : field) (qs : list (Question_of field)) :
  section_questions s qs <> [] ->
  exists avg, section_average (section_scores_of s qs) = Returns avg.
Proof.
  intros Hne. unfold section_scores_of, section_average, attr_tabulate.
  cbn [d_clarity d_specificity d_bias d_actionability].
  destruct (section_questions s qs) as [|q0 l]; [contradiction|].
  cbn [map average obind]. eexists. reflexivity.
Qed.

Lemma averages_loop_Returns (items : list (field * attr_dict (list Z)))
    (acc : gmap field (attr_dict Q)) :
  Forall (fun item : field * attr_dict (list Z) =>
            exists avg, section_average item.2 = Returns avg) items ->
  exists R, averages_loop items acc = Returns R.
Proof.
  intros H. revert acc.
  induction H as [|[s d] items [avg Havg] _ IH]; intros acc.
  - eexists. reflexivity.
  - cbn [averages_loop]. cbn [snd] in Havg. rewrite Havg. cbn [obind].
    apply IH.
Qed.

(** Once the rows are read, the averages never fail: no list is empty, so
    [sum(vals) / len(vals)] does not divide by zero. *)
Lemma parse_csv_output_Raises (csv_text : string) (e : exn) :
  _parse_csv_output env csv_text = Raises e ->
  parse_rows (dict_reader env csv_text).1 ([], ∅) = Raises e
  \/ ((exists st, parse_rows (dict_reader env csv_text).1 ([], ∅) = Returns st)
      /\ exists msg, (dict_reader env csv_text).2 = Some msg /\ e = CsvError msg).
Proof.
  unfold Scorer._parse_csv_output. cbn zeta.
  destruct (parse_rows (dict_reader env csv_text).1 ([], ∅)) as [[qs ss]|e'] eqn:Ep;
    cbn [obind]; [|intros [= <-]; left; reflexivity].
  destruct ((dict_reader env csv_text).2) as [msg|]; cbn [reader_end obind].
  { intros [= <-]. right. split; [eexists; reflexivity|].
    exists msg. split; reflexivity. }
  pose proof (parse_rows_agree _ _ _ _ _ scores_agree_empty Ep) as Hagree.
  destruct (averages_loop_Returns (map_to_list ss) ∅) as [R HR].
  { apply Forall_forall. intros [s d] Hin. cbn [snd].
    apply elem_of_map_to_list in Hin. rewrite (Hagree s) in Hin.
    destruct (section_questions s qs) as [|q0 l] eqn:Eq; [discriminate|].
    injection Hin as <-. apply section_average_of_questions. congruence. }
  rewrite HR. discriminate.
Qed.

(** *** The suffix check of [score_document] *)

Lemma content_blocks_for_unsupported (doc_path suffix : string)
    (tr : list event) :
  suffix <> ".docx" -> suffix <> ".pdf" ->
  content_blocks_for env doc_path suffix tr
  = (Raises (ValueError (unsupported_message suffix)), tr).
Proof.
  intros H1 H2. unfold content_blocks_for.
  apply String.eqb_neq in H1. apply String.eqb_neq in H2.
  rewrite H1, H2. reflexivity.
Qed.

Lemma content_blocks_for_supported (doc_path suffix : string)
    (tr tr' : list event) (e : exn) :
  suffix = ".docx" \/ suffix = ".pdf" ->
  content_blocks_for env doc_path suffix tr = (Raises e, tr') ->
  exists msg, e = CollaboratorError msg.
Proof.
  unfold content_blocks_for, _extract_docx_text.
  intros [->| ->]; cbn [String.eqb Ascii.eqb Bool.eqb].
  - destruct (docx_paragraphs env doc_path tr) as [ps|msg];
      cbn [collaborate obind]; [discriminate|].
    intros [= <- _]. eexists. reflexivity.
  - destruct (read_base64 env doc_path tr) as [data|msg];
      cbn [collaborate obind]; [discriminate|].
    intros [= <- _]. eexists. reflexivity.
Qed.

Lemma parse_csv_output_error (csv_text : string) (e : exn) :
  _parse_csv_output env csv_text = Raises e ->
  row_error e \/ exists msg, e = CsvError msg.
Proof.
  intros Hp. apply parse_csv_output_Raises in Hp as [Hp|[_ (msg & _ & ->)]].
  - left. eapply parse_rows_Raises, Hp.
  - right. eexists. reflexivity.
Qed.

Lemma score_document_supported_Raises (doc_path : string) (save_csv : bool)
    (tr : list event) (e : exn) :
  PyStr.lower (path_suffix env doc_path) = ".docx"
  \/ PyStr.lower (path_suffix env doc_path) = ".pdf" ->
  (score_document env doc_path save_csv tr).1 = Raises e ->
  (exists msg, e = CollaboratorError msg)
  \/ row_error e \/ exists msg, e = CsvError msg.
Proof.
  intros Hs. unfold score_document.
  destruct (content_blocks_for env doc_path _ _) as [[blocks|e0] tr0] eqn:Eb.
  - destruct (messages_create env blocks _) as [text|msg];
      cbn [collaborate fst].
    + destruct save_csv.
      * destruct (write_file env _ _ _) as [u|msg]; cbn [collaborate fst].
        -- destruct (_parse_csv_output env _) as [r|e1] eqn:Ep; cbn [fst];
             [discriminate|].
           intros [= <-]. right.
           eapply parse_csv_output_error, Ep.
        -- intros [= <-]. left. eexists. reflexivity.
      * destruct (_parse_csv_output env _) as [r|e1] eqn:Ep; cbn [fst];
          [discriminate|].
        intros [= <-]. right.
        eapply parse_csv_output_error, Ep.
    + intros [= <-]. left. eexists. reflexivity.
  - cbn [fst]. intros [= <-]. left.
    eapply content_blocks_for_supported; eauto.
Qed.

Lemma unsupported_message_not_int_error (suffix : string) :
  ~ int_error (ValueError (unsupported_message suffix)).
Proof.
  unfold unsupported_message.
  intros [[text H]|(limit & digits & H)]; cbn in H; discriminate H.
Qed.

Lemma collaborator_error_not_parse_error (msg : string) :
  ~ (row_error (CollaboratorError msg)
     \/ exists m, CollaboratorError msg = CsvError m).
Proof.
  intros [[[k Hk]|[[[t Hi]|(l & d & Hi)]|Hn]]|[m Hm]]; discriminate.
Qed.

(** The error of the suffix check is none of the parser's. *)
Lemma unsupported_message_not_parse_error (suffix : string) :
  ~ (row_error (ValueError (unsupported_message suffix))
     \/ exists msg, ValueError (unsupported_message suffix) = CsvError msg).
Proof.
  intros [[[k Hk]|[Hi|Hn]]|[msg Hm]];
    [discriminate Hk| |discriminate Hn|discriminate Hm].
  eapply unsupported_message_not_int_error, Hi.
Qed.

Lemma legacy_score_document_Raises (doc_path : string) (tr : list event)
    (e : exn) :
  (LegacyScorer.score_document env doc_path tr).1 = Raises e ->
  (exists msg, e = CollaboratorError msg)
  \/ row_error e \/ exists msg, e = CsvError msg.
Proof.
  unfold LegacyScorer.score_document.
  destruct (read_base64 env doc_path tr) as [data|msg]; cbn [collaborate fst].
  - destruct (messages_create env _ _) as [text|msg]; cbn [collaborate fst].
    + unfold LegacyScorer._parse_csv_output. intros Ep. right.
      eapply parse_csv_output_error, Ep.
    + intros [= <-]. left. eexists. reflexivity.
  - intros [= <-]. left. eexists. reflexivity.
Qed.

Lemma legacy_media_type_fallback (suffix : string) :
  suffix <> ".docx" -> suffix <> ".pdf" -> suffix <> ".doc" ->
  LegacyScorer.media_type_of suffix = "application/pdf".
Proof.
  intros H1 H2 H3. unfold LegacyScorer.media_type_of, LegacyScorer.media_types.
  rewrite lookup_insert_ne by congruence.
  rewrite lookup_insert_ne by congruence.
  rewrite lookup_insert_ne by congruence.
  rewrite lookup_empty. reflexivity.
Qed.

End facts.

(** The sample rows: two sections, the averages of [Demographics] over
    its two questions. *)
Example sample_parse_returns :
  exists r,
    Scorer._parse_csv_output SampleEnv.env "csv" = Returns r
    /\ map question_text (questions r)
       = [Some "What is your age?"; Some "Any comments?";
          Some "How satisfied are you?"]
    /\ dom (section_averages r) = {[ Some "Demographics"; Some "Feedback" ]}
    /\ section_averages r !! Some "Demographics"
       = Some (AttrDict (9 / 2) (7 / 2) (7 / 2) (7 / 2))%Q.
Proof.
  eexists. split; [vm_compute; reflexivity|].
  split; [reflexivity|]. split; vm_compute; reflexivity.
Qed.

(** C9: in a result of [_parse_csv_output] (either file), the keys of
    [section_averages] are the sections of the questions, and the average
    stored for a section and an attribute is the arithmetic mean of that
    attribute over the section's questions. *)
Theorem section_averages_are_section_means
    (env : environment) (csv_text : string) (r : ScoringResult_of field) :
  Scorer._parse_csv_output env csv_text = Returns r
  \/ LegacyScorer._parse_csv_output env csv_text = Returns r ->
  (forall s : field,
      s ∈ dom (section_averages r) <->
      exists q, q ∈ questions r /\ section q = s)
  /\ (forall (s : field) (avg : attr_dict Q) (a : attribute),
        section_averages r !! s = Some avg ->
        section_questions s (questions r) <> []
        /\ attr_get avg a
           = (inject_Z (Metrics.sum_Z
                          (map (fun q => score q a)
                               (section_questions s (questions r))))
              / inject_Z (Z.of_nat
                            (length (section_questions s (questions r)))))%Q).
Proof.
  intros [H|H]; exact (parse_csv_output_sections env csv_text r H).
Qed.

Lemma section_averages_are_section_means_witness :
  exists r,
    Scorer._parse_csv_output SampleEnv.env "csv" = Returns r
    /\ forall s : field,
         s ∈ dom (section_averages r) <->
         exists q, q ∈ questions r /\ section q = s.
Proof.
  destruct sample_parse_returns as (r & Hr & _).
  exists r. split; [exact Hr|].
  exact (proj1 (section_averages_are_section_means SampleEnv.env "csv" r
                  (or_introl Hr))).
Defined.

(** C10, amended: with a lowercase suffix other than [.docx] and [.pdf],
    [score_document] of [questionnaire_scorer.py] raises the [ValueError]
    that names the suffix, having logged the workflow span and made no
    scoring call; it raises that error for no other suffix.  The legacy
    variant has no such check: it sends the document whatever the suffix,
    as [application/msword] for [.doc] and as [application/pdf] for every
    suffix other than [.docx], [.pdf] and [.doc]. *)
Theorem unsupported_suffix_raises_before_scoring
    (env : environment) (doc_path : string) (save_csv : bool)
    (tr : list event) :
  let suffix := PyStr.lower (path_suffix env doc_path) in
  (suffix <> ".docx" -> suffix <> ".pdf" ->
   Scorer.score_document env doc_path save_csv tr
   = (Raises (ValueError (Scorer.unsupported_message suffix)),
      tr ++ [EvWorkflowSpan doc_path])
   /\ existsb is_scoring_call
        (drop (length tr) (Scorer.score_document env doc_path save_csv tr).2)
      = false)
  /\ ((Scorer.score_document env doc_path save_csv tr).1
      = Raises (ValueError (Scorer.unsupported_message suffix))
      <-> suffix <> ".docx" /\ suffix <> ".pdf")
  /\ (LegacyScorer.score_document env doc_path tr).1
     <> Raises (ValueError (Scorer.unsupported_message suffix))
  /\ (forall doc_data,
        read_base64 env doc_path tr = Done doc_data ->
        EvMessagesCreate [DocumentBlock (LegacyScorer.media_type_of suffix) doc_data;
                          TextBlock (SCORING_PROMPT env)]
        ∈ (LegacyScorer.score_document env doc_path tr).2)
  /\ LegacyScorer.media_type_of ".doc" = "application/msword"
  /\ (suffix <> ".docx" -> suffix <> ".pdf" -> suffix <> ".doc" ->
      LegacyScorer.media_type_of suffix = "application/pdf").
Proof.
  intros suffix.
  assert (Hguard : suffix <> ".docx" -> suffix <> ".pdf" ->
            Scorer.score_document env doc_path save_csv tr
            = (Raises (ValueError (Scorer.unsupported_message suffix)),
               tr ++ [EvWorkflowSpan doc_path])).
  { intros H1 H2. unfold Scorer.score_document. fold suffix.
    rewrite content_blocks_for_unsupported by assumption. reflexivity. }
  split; [|split; [|split; [|split; [|split]]]].
  - intros H1 H2. split; [apply Hguard; assumption|].
    rewrite (Hguard H1 H2). cbn [snd]. rewrite drop_app_length. reflexivity.
  - split.
    + intros Hraise.
      destruct (String.eqb_spec suffix ".docx") as [Hd|Hd];
        [|destruct (String.eqb_spec suffix ".pdf") as [Hp|Hp]; [|tauto]].
      * exfalso.
        destruct (score_document_supported_Raises env doc_path save_csv tr _
                    (or_introl Hd) Hraise) as [[m Hm]|Hp];
          [discriminate Hm|].
        eapply unsupported_message_not_parse_error, Hp.
      * exfalso.
        destruct (score_document_supported_Raises env doc_path save_csv tr _
                    (or_intror Hp) Hraise) as [[m Hm]|Hp'];
          [discriminate Hm|].
        eapply unsupported_message_not_parse_error, Hp'.
    + intros [H1 H2]. rewrite (Hguard H1 H2). reflexivity.
  - intros Hraise.
    destruct (legacy_score_document_Raises env doc_path tr _ Hraise)
      as [[m Hm]|Hp]; [discriminate Hm|].
    eapply unsupported_message_not_parse_error, Hp.
  - intros doc_data Hread. unfold LegacyScorer.score_document.
    rewrite Hread. cbn [collaborate]. fold suffix.
    destruct (messages_create env _ _) as [text|msg]; cbn [collaborate snd];
      apply elem_of_app; right; left.
  - reflexivity.
  - apply legacy_media_type_fallback.
Qed.

(** C10 as first stated fails on the legacy variant: [.doc] is neither
    [.docx] nor [.pdf], and the legacy scorer sends such a document as
    [application/msword], not as a PDF. *)
Lemma legacy_doc_suffix_is_sent_as_msword :
  PyStr.lower (path_suffix SampleEnv.env "survey.doc") = ".doc"
  /\ ".doc" <> ".docx" /\ ".doc" <> ".pdf"
  /\ LegacyScorer.media_type_of ".doc" <> "application/pdf"
  /\ (LegacyScorer.score_document SampleEnv.env "survey.doc" []).2
     = [EvReadFile "survey.doc";
        EvMessagesCreate [DocumentBlock "application/msword" "JVBERi0=";
                          TextBlock "Score each question."]].
Proof.
  split; [reflexivity|]. split; [discriminate|]. split; [discriminate|].
  split; [vm_compute; discriminate|]. vm_compute. reflexivity.
Qed.

End ScorerFacts.

(** ** More on the metrics calculator *)

Module MetricsMore.
Import Metrics MatchSpec MetricsFacts QuestionRel.

Lemma truediv_eq_1 (a b : Z) : 0 < b -> (truediv a b == 1)%Q <-> a = b.
Proof.
  intros Hb. unfold truediv, Qdiv, Qeq.
  destruct b as [|b|b]; try lia. simpl. split; intros H; nia.
Qed.

Lemma truediv_eq_0 (a b : Z) : 0 < b -> (truediv a b == 0)%Q <-> a = 0.
Proof.
  intros Hb. unfold truediv, Qdiv, Qeq.
  destruct b as [|b|b]; try lia. simpl. split; intros H; nia.
Qed.

Lemma truediv_le (a b k : Z) :
  0 < b -> a <= k * b -> (truediv a b <= inject_Z k)%Q.
Proof.
  intros Hb H. unfold truediv, Qdiv, Qle.
  destruct b as [|b|b]; try lia. simpl. nia.
Qed.

Lemma sum_Z_le (l : list Z) (k : Z) :
  Forall (fun x => x <= k) l -> sum_Z l <= k * Z.of_nat (length l).
Proof.
  induction 1 as [|x l Hx _ IH]; [unfold sum_Z; simpl; lia|].
  rewrite sum_Z_cons. cbn [length]. lia.
Qed.

(** The metrics of a case with questions, spelled out. *)
Lemma calculate_eval_metrics_Returns (predicted : ScoringResult)
    (exp_qs : list Question) (exp_sa : option (gmap string (attr_dict Q))) :
  calculate_eval_metrics predicted (mkExpected (Some exp_qs) exp_sa)
  = Returns {|
      extraction_accuracy :=
        if (0 <? size (text_keys exp_qs))%nat then
          truediv (Z.of_nat (size (text_keys (questions predicted)
                                   ∩ text_keys exp_qs)))
                  (Z.of_nat (size (text_keys exp_qs)))
        else 0%Q;
      score_mae := attr_tabulate (fun a =>
        mae_of (map (abs_error a)
                    (matched_pairs (questions predicted) exp_qs)));
      score_within_1 := attr_tabulate (fun a =>
        within_1_of (map (fun e => e <=? 1)
                         (map (abs_error a)
                              (matched_pairs (questions predicted) exp_qs))));
      section_detection :=
        section_detection_of predicted (mkExpected (Some exp_qs) exp_sa)
    |}.
Proof.
  unfold calculate_eval_metrics. cbn [exp_questions subscript obind].
  f_equal. f_equal; unfold attr_tabulate; rewrite !score_loop_spec;
    cbn [fst snd]; rewrite ?map_map; reflexivity.
Qed.

Lemma section_detection_of_unit (predicted : ScoringResult)
    (expected : ExpectedOutput) :
  (0 <= section_detection_of predicted expected
   /\ section_detection_of predicted expected <= 1)%Q.
Proof.
  unfold section_detection_of.
  destruct (exp_section_averages expected) as [sa|];
    [|unfold Qle; simpl; lia].
  destruct (size sa) as [|n] eqn:E; [unfold Qle; simpl; lia|].
  replace (0 <? S n)%nat with true by reflexivity.
  destruct (size (dom sa)) as [|k] eqn:Ek; [unfold Qle; simpl; lia|].
  replace (0 <? S k)%nat with true by reflexivity.
  apply truediv_unit; [|lia].
  pose proof (intersection_size_le (dom (section_averages predicted)) (dom sa)).
  lia.
Qed.

Lemma abs_errors_nonneg (a : attribute) (pairs : list (Question * Question)) :
  Forall (fun x => 0 <= x) (map (abs_error a) pairs).
Proof.
  apply Forall_forall. intros x Hx. apply list_elem_of_In, in_map_iff in Hx.
  destruct Hx as (pe & <- & _). unfold abs_error. lia.
Qed.

(** [section_detection] lies in [0, 1] and no MAE is negative. *)
Theorem section_detection_and_mae_bounds
    (predicted : ScoringResult) (exp_qs : list Question)
    (exp_sa : option (gmap string (attr_dict Q))) :
  exists m : EvalMetrics,
    calculate_eval_metrics predicted (mkExpected (Some exp_qs) exp_sa)
      = Returns m
    /\ (0 <= section_detection m /\ section_detection m <= 1)%Q
    /\ forall a : attribute, (0 <= attr_get (score_mae m) a)%Q.
Proof.
  eexists. split; [apply calculate_eval_metrics_Returns|].
  cbn [section_detection score_mae].
  split; [apply section_detection_of_unit|].
  intros a. rewrite attr_get_tabulate. apply mae_of_nonneg, abs_errors_nonneg.
Qed.

(** With every score in [lo, hi], no MAE exceeds [hi - lo]: at most 4 on
    the 1..5 scale. *)
Theorem score_mae_at_most_score_range
    (predicted : ScoringResult) (exp_qs : list Question)
    (exp_sa : option (gmap string (attr_dict Q))) (lo hi : Z) :
  lo <= hi ->
  Forall (scores_within lo hi) (questions predicted) ->
  Forall (scores_within lo hi) exp_qs ->
  exists m : EvalMetrics,
    calculate_eval_metrics predicted (mkExpected (Some exp_qs) exp_sa)
      = Returns m
    /\ forall a : attribute,
         (attr_get (score_mae m) a <= inject_Z (hi - lo))%Q.
Proof.
  intros Hle Hp He.
  eexists. split; [apply calculate_eval_metrics_Returns|].
  cbn [score_mae]. intros a. rewrite attr_get_tabulate.
  assert (Hall : Forall (fun x => x <= hi - lo)
                   (map (abs_error a)
                        (matched_pairs (questions predicted) exp_qs))).
  { apply Forall_forall. intros x Hx.
    apply list_elem_of_In, in_map_iff in Hx. destruct Hx as ([p e] & <- & Hin).
    apply list_elem_of_In in Hin. unfold matched_pairs in Hin.
    apply list_elem_of_omap in Hin. destruct Hin as (e' & He' & Hf).
    destruct (find_match (questions predicted) (normalize e')) as [p'|] eqn:Ef;
      [|discriminate].
    injection Hf as <- <-.
    apply List.find_some in Ef as [Hin' _]. apply list_elem_of_In in Hin'.
    rewrite Forall_forall in Hp, He.
    specialize (Hp p' Hin' a). specialize (He e' He' a).
    unfold abs_error. cbn [fst snd]. lia. }
  destruct (map (abs_error a) (matched_pairs (questions predicted) exp_qs))
    as [|x l] eqn:El.
  - unfold mae_of, Qle. simpl. lia.
  - unfold mae_of. apply truediv_le; [unfold len; cbn [length]; lia|].
    apply sum_Z_le, Hall.
Qed.

Lemma overlap_full (P E : gset string) :
  size (P ∩ E) = size E <-> E ⊆ P.
Proof.
  split.
  - intros H.
    assert (Heq : P ∩ E = E).
    { apply set_subseteq_size_eq; [apply intersection_subseteq_r|lia]. }
    intros k Hk. rewrite <- Heq in Hk. apply elem_of_intersection in Hk. tauto.
  - intros H. f_equal. apply set_eq. intros k. rewrite elem_of_intersection.
    split; [tauto|]. intros Hk. split; [apply H, Hk|exact Hk].
Qed.

Lemma overlap_none (P E : gset string) :
  size (P ∩ E) = 0%nat <-> P ∩ E = ∅.
Proof.
  split.
  - intros H. apply leibniz_equiv, size_empty_inv, H.
  - intros ->. apply size_empty.
Qed.

Lemma text_keys_size_0 (qs : list Question) :
  size (text_keys qs) = 0%nat <-> qs = [].
Proof.
  destruct qs as [|q qs]; [split; reflexivity|].
  split; [|discriminate]. intros H. exfalso.
  apply size_empty_inv in H.
  assert (Hin : normalize q ∈ text_keys (q :: qs)).
  { unfold text_keys. cbn [map list_to_set]. apply elem_of_union. left.
    apply elem_of_singleton. reflexivity. }
  apply H in Hin. apply not_elem_of_empty in Hin. exact Hin.
Qed.

(** [extraction_accuracy] is 1 exactly when the expected key set is not
    empty and every expected key is a predicted key; it is 0 exactly when
    no expected key is a predicted key (an empty expected set included). *)
Theorem extraction_accuracy_extremes
    (predicted : ScoringResult) (exp_qs : list Question)
    (exp_sa : option (gmap string (attr_dict Q))) :
  exists m : EvalMetrics,
    calculate_eval_metrics predicted (mkExpected (Some exp_qs) exp_sa)
      = Returns m
    /\ ((extraction_accuracy m == 1)%Q <->
        exp_qs <> [] /\ text_keys exp_qs ⊆ text_keys (questions predicted))
    /\ ((extraction_accuracy m == 0)%Q <->
        text_keys (questions predicted) ∩ text_keys exp_qs = ∅).
Proof.
  eexists. split; [apply calculate_eval_metrics_Returns|].
  cbn [extraction_accuracy].
  pose proof (text_keys_size_0 exp_qs) as Hnil.
  pose proof (overlap_full (text_keys (questions predicted)) (text_keys exp_qs))
    as Hfull.
  pose proof (overlap_none (text_keys (questions predicted)) (text_keys exp_qs))
    as Hnone.
  pose proof (intersection_size_le (text_keys (questions predicted))
                (text_keys exp_qs)) as Hle.
  destruct (size (text_keys exp_qs)) as [|n] eqn:En.
  - replace (0 <? 0)%nat with false by reflexivity.
    split.
    + split; [intros H; discriminate H|]. intros [Hne _]. tauto.
    + split; [|reflexivity]. intros _. apply Hnone. lia.
  - replace (0 <? S n)%nat with true by reflexivity.
    rewrite truediv_eq_1, truediv_eq_0 by lia.
    split.
    + rewrite <- Hfull. split.
      * intros H. split; [|lia]. intros Hq. apply Hnil in Hq. discriminate Hq.
      * intros [_ H]. lia.
    + rewrite <- Hnone. lia.
Qed.

(** *** What the calculator reads of the questions *)

Lemma matched_pairs_errors_ext (a : attribute)
    (p p' e e' : list Question) :
  Forall2 same_key_and_scores e e' ->
  (forall k, option_Forall2 same_key_and_scores
               (find_match p k) (find_match p' k)) ->
  map (abs_error a) (matched_pairs p e) = map (abs_error a) (matched_pairs p' e').
Proof.
  intros He Hfind. induction He as [|x x' e e' [Hk Hs] _ IH]; [reflexivity|].
  unfold matched_pairs. cbn [omap list_omap]. fold (matched_pairs p e).
  fold (matched_pairs p' e'). rewrite <- Hk.
  destruct (Hfind (normalize x)) as [y y' [_ Hy]|]; cbn.
  - rewrite IH. f_equal. unfold abs_error. cbn [fst snd]. rewrite Hy, Hs.
    reflexivity.
  - exact IH.
Qed.

Lemma find_match_rel (p p' : list Question) (k : string) :
  Forall2 same_key_and_scores p p' ->
  option_Forall2 same_key_and_scores (find_match p k) (find_match p' k).
Proof.
  unfold find_match. induction 1 as [|x x' p p' Hx _ IH]; [constructor|].
  cbn [List.find]. destruct Hx as [Hk Hs]. rewrite <- Hk.
  destruct (String.eqb (normalize x) k); [|exact IH].
  constructor. split; assumption.
Qed.

Lemma text_keys_rel (p p' : list Question) :
  Forall2 same_key_and_scores p p' -> text_keys p = text_keys p'.
Proof.
  unfold text_keys. induction 1 as [|x x' p p' [Hk _] _ IH]; [reflexivity|].
  cbn [map list_to_set]. rewrite Hk, IH. reflexivity.
Qed.

Lemma calculate_eval_metrics_ext (sa : gmap string (attr_dict Q))
    (p p' e e' : list Question) (exp_sa : option (gmap string (attr_dict Q))) :
  text_keys p = text_keys p' ->
  text_keys e = text_keys e' ->
  (forall a, map (abs_error a) (matched_pairs p e)
             = map (abs_error a) (matched_pairs p' e')) ->
  calculate_eval_metrics (mkScoringResult p sa) (mkExpected (Some e) exp_sa)
  = calculate_eval_metrics (mkScoringResult p' sa) (mkExpected (Some e') exp_sa).
Proof.
  intros Hp He Herr. rewrite !calculate_eval_metrics_Returns.
  cbn [questions]. rewrite Hp, He. unfold attr_tabulate. rewrite !Herr.
  reflexivity.
Qed.

(** The calculator reads a question's key and its four scores and nothing
    else: section names, question numbers and the letter case and outer
    white space of the texts do not change any metric. *)
Theorem metrics_read_keys_and_scores_only
    (sa : gmap string (attr_dict Q))
    (p p' e e' : list Question) (exp_sa : option (gmap string (attr_dict Q))) :
  Forall2 same_key_and_scores p p' ->
  Forall2 same_key_and_scores e e' ->
  calculate_eval_metrics (mkScoringResult p sa) (mkExpected (Some e) exp_sa)
  = calculate_eval_metrics (mkScoringResult p' sa) (mkExpected (Some e') exp_sa).
Proof.
  intros Hp He. apply calculate_eval_metrics_ext.
  - apply text_keys_rel, Hp.
  - apply text_keys_rel, He.
  - intros a. apply matched_pairs_errors_ext; [exact He|].
    intros k. apply find_match_rel, Hp.
Qed.

Lemma same_key_and_scores_refl (q : Question) : same_key_and_scores q q.
Proof. split; reflexivity. Qed.

Lemma metrics_read_keys_and_scores_only_witness :
  calculate_eval_metrics
    (mkScoringResult [Sample.predicted_age] ∅)
    (mkExpected (Some [Sample.expected_age]) None)
  = calculate_eval_metrics
      (mkScoringResult [mkQuestion "Other" 7 "  AGE?" 4 4 5 2] ∅)
      (mkExpected (Some [mkQuestion "X" 9 "age?" 5 4 3 2]) None).
Proof.
  apply (metrics_read_keys_and_scores_only ∅).
  - constructor; [|constructor]. split; [reflexivity|]. intros []; reflexivity.
  - constructor; [|constructor]. split; [reflexivity|]. intros []; reflexivity.
Defined.

(** *** Duplicate predicted questions *)

Lemma find_skip (pre post : list Question) (q : Question) (k : string) :
  normalize q <> k ->
  find_match (pre ++ q :: post) k = find_match (pre ++ post) k.
Proof.
  intros Hq. unfold find_match.
  induction pre as [|x pre IH]; cbn [app List.find].
  - apply String.eqb_neq in Hq. rewrite Hq. reflexivity.
  - destruct (String.eqb (normalize x) k); [reflexivity|exact IH].
Qed.

Lemma find_match_duplicate (pre post : list Question) (q : Question)
    (k : string) :
  In (normalize q) (map normalize pre) ->
  find_match (pre ++ q :: post) k = find_match (pre ++ post) k.
Proof.
  induction pre as [|x pre IH]; [intros []|].
  cbn [map In]. intros Hin. unfold find_match. cbn [app List.find].
  destruct (String.eqb (normalize x) k) eqn:E; [reflexivity|].
  apply String.eqb_neq in E.
  destruct Hin as [Heq|Hin].
  - apply find_skip. congruence.
  - apply IH, Hin.
Qed.

(** A predicted question whose key already occurs earlier in the predicted
    list is never used: dropping it changes no metric. *)
Theorem later_duplicate_prediction_is_ignored
    (sa : gmap string (attr_dict Q)) (pre post : list Question) (q : Question)
    (exp_qs : list Question) (exp_sa : option (gmap string (attr_dict Q))) :
  In (normalize q) (map normalize pre) ->
  calculate_eval_metrics (mkScoringResult (pre ++ q :: post) sa)
                         (mkExpected (Some exp_qs) exp_sa)
  = calculate_eval_metrics (mkScoringResult (pre ++ post) sa)
                           (mkExpected (Some exp_qs) exp_sa).
Proof.
  intros Hdup. apply calculate_eval_metrics_ext.
  - unfold text_keys. apply set_eq. intros k.
    rewrite !elem_of_list_to_set, !list_elem_of_In, !map_app, !in_app_iff.
    cbn [map In]. split; [|tauto].
    intros [H|[H|H]]; [tauto| |tauto]. left. rewrite <- H. exact Hdup.
  - reflexivity.
  - intros a. unfold matched_pairs. f_equal.
    apply list_omap_ext. clear -Hdup.
    induction exp_qs as [|e es IH]; constructor; [|exact IH].
    rewrite find_match_duplicate; [reflexivity|exact Hdup].
Qed.

Lemma later_duplicate_prediction_is_ignored_witness :
  calculate_eval_metrics
    (mkScoringResult
       ([Sample.predicted_age] ++ mkQuestion "General" 2 "AGE?" 1 1 1 1 :: [])
       ∅)
    Sample.expected
  = calculate_eval_metrics
      (mkScoringResult ([Sample.predicted_age] ++ []) ∅) Sample.expected.
Proof.
  apply (later_duplicate_prediction_is_ignored ∅ [Sample.predicted_age] []).
  left. reflexivity.
Defined.

Lemma sample_predicted_scores :
  Forall (scores_within 1 5) (questions Sample.predicted).
Proof. constructor; [intros []; cbn; lia|constructor]. Qed.

Lemma sample_expected_scores :
  Forall (scores_within 1 5) [Sample.expected_age; Sample.expected_name].
Proof.
  constructor; [intros []; cbn; lia|].
  constructor; [intros []; cbn; lia|constructor].
Qed.

Lemma sample_expected_keys_NoDup :
  NoDup (map normalize [Sample.expected_age; Sample.expected_name]).
Proof.
  cbn [map]. apply NoDup_cons. split.
  - intros H. apply list_elem_of_In in H. destruct H as [H|[]].
    vm_compute in H. discriminate H.
  - apply NoDup_cons. split; [intros H; inversion H|apply NoDup_nil; exact I].
Qed.

Lemma score_mae_at_most_score_range_witness :
  exists m : EvalMetrics,
    calculate_eval_metrics Sample.predicted Sample.expected = Returns m
    /\ forall a : attribute, (attr_get (score_mae m) a <= inject_Z (5 - 1))%Q.
Proof.
  apply (score_mae_at_most_score_range Sample.predicted
           [Sample.expected_age; Sample.expected_name] _ 1 5).
  - lia.
  - exact sample_predicted_scores.
  - exact sample_expected_scores.
Defined.

(** *** Sets against first matches *)

Lemma find_match_is_Some (p : list Question) (k : string) :
  is_Some (find_match p k) <-> k ∈ text_keys p.
Proof.
  rewrite elem_of_text_keys. unfold find_match. split.
  - intros [q Hq]. apply List.find_some in Hq as [Hin Heq].
    apply String.eqb_eq in Heq. exists q.
    split; [apply list_elem_of_In, Hin|]. symmetry. exact Heq.
  - intros (q & Hin & Hk).
    destruct (List.find (fun q0 => String.eqb (normalize q0) k) p) as [q'|] eqn:E;
      [eexists; reflexivity|].
    exfalso. apply list_elem_of_In in Hin.
    pose proof (List.find_none _ _ E q Hin) as Hf. cbn in Hf.
    apply String.eqb_neq in Hf. apply Hf. symmetry. exact Hk.
Qed.

Lemma matched_pairs_length (p e : list Question) :
  length (matched_pairs p e)
  = length (filter (fun k => k ∈ text_keys p) (map normalize e)).
Proof.
  induction e as [|q e IH]; [reflexivity|].
  unfold matched_pairs. cbn [omap list_omap map]. fold (matched_pairs p e).
  pose proof (find_match_is_Some p (normalize q)) as Hs.
  rewrite filter_cons.
  destruct (decide (normalize q ∈ text_keys p)) as [Hin|Hout].
  - apply Hs in Hin. destruct Hin as [q' Hq']. rewrite Hq'.
    cbn [fmap option_fmap option_map length]. rewrite IH. reflexivity.
  - destruct (find_match p (normalize q)) as [q'|]; [|exact IH].
    exfalso. apply Hout, Hs. eexists. reflexivity.
Qed.

Lemma overlap_size_NoDup (P : gset string) (l : list string) :
  NoDup l ->
  size (P ∩ list_to_set l) = length (filter (fun k => k ∈ P) l).
Proof.
  intros Hnd.
  assert (Heq : P ∩ list_to_set l
                = list_to_set (filter (fun k => k ∈ P) l)).
  { apply set_eq. intros k.
    rewrite elem_of_intersection, !elem_of_list_to_set, list_elem_of_filter.
    reflexivity. }
  rewrite Heq. apply size_list_to_set, NoDup_filter, Hnd.
Qed.

(** The set-based extraction accuracy and the ordered first-match pairing
    count the same thing when no two expected questions share a key: the
    accuracy is then the number of matched pairs over the number of
    expected questions.  No pairing has more pairs than there are expected
    questions. *)
Theorem extraction_counts_first_matches
    (predicted : ScoringResult) (exp_qs : list Question)
    (exp_sa : option (gmap string (attr_dict Q))) :
  NoDup (map normalize exp_qs) ->
  exists m : EvalMetrics,
    calculate_eval_metrics predicted (mkExpected (Some exp_qs) exp_sa)
      = Returns m
    /\ (length (matched_pairs (questions predicted) exp_qs)
        <= length exp_qs)%nat
    /\ extraction_accuracy m
       = match exp_qs with
         | [] => 0%Q
         | _ => truediv
                  (Z.of_nat (length (matched_pairs (questions predicted) exp_qs)))
                  (Z.of_nat (length exp_qs))
         end.
Proof.
  intros Hnd. eexists. split; [apply calculate_eval_metrics_Returns|].
  cbn [extraction_accuracy].
  split.
  { rewrite matched_pairs_length.
    etransitivity; [apply length_filter|]. rewrite length_map. reflexivity. }
  unfold text_keys at 1 3 4.
  rewrite (size_list_to_set (map normalize exp_qs)) by exact Hnd.
  rewrite overlap_size_NoDup by exact Hnd.
  rewrite <- matched_pairs_length, length_map.
  destruct exp_qs as [|e es]; reflexivity.
Qed.

Lemma extraction_counts_first_matches_witness :
  exists m : EvalMetrics,
    calculate_eval_metrics Sample.predicted Sample.expected = Returns m
    /\ extraction_accuracy m = truediv 1 2.
Proof.
  destruct (extraction_counts_first_matches Sample.predicted
              [Sample.expected_age; Sample.expected_name]
              (exp_section_averages Sample.expected))
    as (m & Hm & _ & Hx).
  - exact sample_expected_keys_NoDup.
  - exists m. split; [exact Hm|exact Hx].
Defined.

(** *** A result against itself *)

Lemma find_match_self (pre post : list Question) (q : Question) :
  NoDup (map normalize (pre ++ q :: post)) ->
  find_match (pre ++ q :: post) (normalize q) = Some q.
Proof.
  unfold find_match. induction pre as [|x pre IH]; cbn [app map List.find].
  - intros _. rewrite String.eqb_refl. reflexivity.
  - intros Hnd. apply NoDup_cons in Hnd as [Hx Hnd].
    destruct (String.eqb_spec (normalize x) (normalize q)) as [Heq|_];
      [|apply IH, Hnd].
    exfalso. apply Hx. rewrite Heq, map_app. apply list_elem_of_In, in_app_iff.
    right. left. reflexivity.
Qed.

Lemma matched_pairs_diag (p e : list Question) :
  Forall (fun q => find_match p (normalize q) = Some q) e ->
  matched_pairs p e = map (fun q => (q, q)) e.
Proof.
  induction 1 as [|q e Hq _ IH]; [reflexivity|].
  unfold matched_pairs. cbn [omap list_omap map]. rewrite Hq.
  cbn [fmap option_fmap option_map]. f_equal. exact IH.
Qed.

Lemma matched_pairs_self (qs : list Question) :
  NoDup (map normalize qs) -> matched_pairs qs qs = map (fun q => (q, q)) qs.
Proof.
  intros Hnd. apply matched_pairs_diag, Forall_forall. intros q Hq.
  apply list_elem_of_split in Hq as (pre & post & ->).
  apply find_match_self, Hnd.
Qed.

Lemma sum_Z_zeros (l : list Z) : Forall (fun x => x = 0) l -> sum_Z l = 0.
Proof.
  induction 1 as [|x l Hx _ IH]; [reflexivity|].
  rewrite sum_Z_cons, Hx, IH. reflexivity.
Qed.

Lemma all_within_1_count (errors : list Z) :
  Forall (fun x => x <= 1) errors ->
  length (filter (fun b : bool => b = true) (map (fun x => x <=? 1) errors))
  = length errors.
Proof.
  induction 1 as [|y l Hy _ IH]; [reflexivity|].
  cbn [map]. rewrite filter_cons_True by (apply Z.leb_le, Hy).
  cbn [length]. rewrite IH. reflexivity.
Qed.

Lemma within_1_of_all (errors : list Z) :
  errors <> [] -> Forall (fun x => x <= 1) errors ->
  (within_1_of (map (fun x => x <=? 1) errors) == 1)%Q.
Proof.
  intros Hne Hall. pose proof (all_within_1_count errors Hall) as Hcount.
  assert (Hpos : (0 < length errors)%nat)
    by (destruct errors; [contradiction|cbn [length]; lia]).
  remember (map (fun x => x <=? 1) errors) as bl eqn:Ebl.
  assert (Hlen : length bl = length errors) by (rewrite Ebl; apply length_map).
  destruct bl as [|b bl']; [cbn [length] in Hlen; lia|].
  change (within_1_of (b :: bl'))
    with (truediv (sum_bool (b :: bl')) (len (b :: bl'))).
  apply truediv_eq_1; [unfold len; lia|].
  rewrite sum_bool_count, Hcount. unfold len. rewrite Hlen. reflexivity.
Qed.

(** Scored against itself, a result whose questions have pairwise distinct
    keys is perfect: accuracy 1, every MAE 0, every within-1 rate 1, and
    section detection 1 when it has sections. *)
Theorem result_against_itself_is_perfect (r : ScoringResult) :
  NoDup (map normalize (questions r)) ->
  questions r <> [] ->
  exists m : EvalMetrics,
    calculate_eval_metrics r
      (mkExpected (Some (questions r)) (Some (section_averages r)))
      = Returns m
    /\ (extraction_accuracy m == 1)%Q
    /\ (forall a : attribute,
          (attr_get (score_mae m) a == 0)%Q
          /\ (attr_get (score_within_1 m) a == 1)%Q)
    /\ (section_averages r <> ∅ -> (section_detection m == 1)%Q).
Proof.
  intros Hnd Hne. eexists. split; [apply calculate_eval_metrics_Returns|].
  cbn [extraction_accuracy score_mae score_within_1 section_detection].
  assert (Herr : forall a, Forall (fun x => x = 0)
                   (map (abs_error a) (matched_pairs (questions r) (questions r)))).
  { intros a. rewrite matched_pairs_self by exact Hnd.
    apply Forall_forall. intros x Hx.
    apply list_elem_of_In in Hx. rewrite map_map in Hx.
    apply in_map_iff in Hx as (q & <- & _).
    unfold abs_error. cbn [fst snd]. lia. }
  assert (Hlen : forall a, map (abs_error a)
                   (matched_pairs (questions r) (questions r)) <> []).
  { intros a. rewrite matched_pairs_self by exact Hnd.
    destruct (questions r); [contradiction|discriminate]. }
  split; [|split].
  - pose proof (text_keys_size_0 (questions r)) as H0.
    destruct (size (text_keys (questions r))) as [|n] eqn:En; [tauto|].
    replace (0 <? S n)%nat with true by reflexivity.
    apply truediv_eq_1; [lia|].
    assert (Hsub : text_keys (questions r) ⊆ text_keys (questions r))
      by (intros k Hk; exact Hk).
    apply overlap_full in Hsub. rewrite Hsub, En. reflexivity.
  - intros a. rewrite !attr_get_tabulate. split.
    + specialize (Herr a). specialize (Hlen a).
      destruct (map (abs_error a) (matched_pairs (questions r) (questions r)))
        as [|x l] eqn:E; [contradiction|].
      unfold mae_of. apply truediv_eq_0; [unfold len; cbn [length]; lia|].
      apply sum_Z_zeros, Herr.
    + apply within_1_of_all; [apply Hlen|].
      eapply Forall_impl; [apply Herr|]. cbn. intros x ->. lia.
  - intros Hsa. unfold section_detection_of. cbn [exp_section_averages].
    assert (Hsize : size (section_averages r) <> 0%nat).
    { intros H. apply Hsa. apply map_size_empty_iff, H. }
    destruct (size (section_averages r)) as [|n] eqn:En; [contradiction|].
    replace (0 <? S n)%nat with true by reflexivity.
    rewrite size_dom, En.
    replace (0 <? S n)%nat with true by reflexivity.
    apply truediv_eq_1; [lia|].
    assert (Hsub : dom (section_averages r) ⊆ dom (section_averages r))
      by (intros k Hk; exact Hk).
    apply (overlap_full (dom (section_averages r))) in Hsub.
    rewrite Hsub, size_dom, En. reflexivity.
Qed.

Lemma sample_predicted_keys_NoDup :
  NoDup (map normalize (questions Sample.predicted)).
Proof.
  cbn [map Sample.predicted questions]. apply NoDup_cons.
  split; [intros H; inversion H|apply NoDup_nil; exact I].
Qed.

Lemma result_against_itself_is_perfect_witness :
  exists m : EvalMetrics,
    calculate_eval_metrics Sample.predicted
      (mkExpected (Some (questions Sample.predicted))
                  (Some (section_averages Sample.predicted)))
      = Returns m
    /\ (extraction_accuracy m == 1)%Q.
Proof.
  destruct (result_against_itself_is_perfect Sample.predicted
              sample_predicted_keys_NoDup)
    as (m & Hm & Hx & _).
  - discriminate.
  - exists m. split; [exact Hm|exact Hx].
Defined.

(** With two questions of one key and different scores, the second is
    compared with the first, and the result is no longer perfect against
    itself. *)
Example duplicate_keys_break_self_comparison :
  exists m : EvalMetrics,
    calculate_eval_metrics
      (mkScoringResult [Sample.predicted_age; mkQuestion "General" 2 "AGE?" 1 1 1 1] ∅)
      (mkExpected
         (Some [Sample.predicted_age; mkQuestion "General" 2 "AGE?" 1 1 1 1])
         None)
    = Returns m
    /\ (attr_get (score_mae m) Clarity == 3 # 2)%Q.
Proof. eexists. split; [reflexivity|]. reflexivity. Qed.

End MetricsMore.

(** ** More on the eval runner *)

Module RunnerMore.
Import Runner RunnerFacts.

Section more.

Variable world : Type.
Variable score_document : string -> world -> outcome ScoringResult * world.

Local Abbreviation run_evals := (run_evals world score_document).
Local Abbreviation run_case := (run_case world score_document).
Local Abbreviation try_case := (try_case world score_document).

Lemma run_evals_app_eq (a b : list EvalCase) (w : world) :
  run_evals (a ++ b) w
  = match (run_evals a w).1 with
    | Returns rows_a =>
        ((rows_b <~ (run_evals b (run_evals a w).2).1 ;;
          Returns (rows_a ++ rows_b)),
         (run_evals b (run_evals a w).2).2)
    | Raises e => (Raises e, (run_evals a w).2)
    end.
Proof.
  revert w. induction a as [|c a IH]; intros w.
  - change (run_evals [] w) with (@Returns (list (gmap string cell)) [], w).
    cbn [app fst snd].
    destruct (run_evals b w) as [[rows|e] w']; reflexivity.
  - cbn [app]. rewrite !run_evals_cons.
    destruct (case_id c) as [eval_id|]; [|reflexivity].
    rewrite IH. cbn [fst snd].
    destruct (run_evals a (run_case eval_id c w).2).1 as [rows_a|e];
      cbn [obind fst snd]; [|reflexivity].
    destruct (run_evals b _).1 as [rows_b|e]; reflexivity.
Qed.

Lemma try_case_missing_document (eval_id : string) (c : EvalCase) (w : world) :
  case_document c = None ->
  try_case eval_id c w = (Raises (KeyError "document"), w).
Proof. intros H. unfold Runner.try_case. rewrite H. reflexivity. Qed.

Lemma try_case_world (eval_id : string) (c : EvalCase) (w : world)
    (document : string) :
  case_document c = Some document ->
  (try_case eval_id c w).2 = (score_document document w).2.
Proof.
  intros H. unfold Runner.try_case. rewrite H. cbn [subscript].
  destruct (score_document document w) as [r w']. reflexivity.
Qed.

Lemma run_case_world (eval_id : string) (c : EvalCase) (w : world) :
  (run_case eval_id c w).2 = (try_case eval_id c w).2.
Proof.
  unfold Runner.run_case.
  destruct (try_case eval_id c w) as [[row|e] w']; reflexivity.
Qed.

Lemma run_case_Raises (eval_id : string) (c : EvalCase) (w : world) (e : exn) :
  (try_case eval_id c w).1 = Raises e ->
  (run_case eval_id c w).1 = error_row eval_id (exn_str e).
Proof.
  unfold Runner.run_case.
  destruct (try_case eval_id c w) as [[row|e'] w']; cbn [fst];
    [discriminate|].
  intros [= ->]. reflexivity.
Qed.

End more.

(** The run of a dataset in two parts is the run of the first part
    followed by the run of the second from the world the first leaves: the
    rows are concatenated, and a missing [id] in the first part ends the
    run before the second is started. *)
Theorem run_evals_of_concatenation
    (world : Type)
    (score_document : string -> world -> outcome ScoringResult * world)
    (a b : list EvalCase) (w : world) :
  run_evals world score_document (a ++ b) w
  = match (run_evals world score_document a w).1 with
    | Returns rows_a =>
        ((rows_b <~ (run_evals world score_document b
                       (run_evals world score_document a w).2).1 ;;
          Returns (rows_a ++ rows_b)),
         (run_evals world score_document b
            (run_evals world score_document a w).2).2)
    | Raises e => (Raises e, (run_evals world score_document a w).2)
    end.
Proof. apply run_evals_app_eq. Qed.

(** A case is reported by the first key it lacks, and what it costs
    depends on the key: without [document] the scorer is not called;
    without [expected_output], or with an [expected_output] without
    [questions], the scorer is called first and its result thrown away. *)
Theorem missing_key_rows_and_their_cost
    (world : Type)
    (score_document : string -> world -> outcome ScoringResult * world)
    (eval_id : string) (c : EvalCase) (w : world) :
  (case_document c = None ->
   run_case world score_document eval_id c w
   = (error_row eval_id "'document'", w))
  /\ (forall document predicted w',
        case_document c = Some document ->
        score_document document w = (Returns predicted, w') ->
        case_expected_output c = None ->
        run_case world score_document eval_id c w
        = (error_row eval_id "'expected_output'", w'))
  /\ (forall document predicted w' exp_sa,
        case_document c = Some document ->
        score_document document w = (Returns predicted, w') ->
        case_expected_output c = Some (mkExpected None exp_sa) ->
        run_case world score_document eval_id c w
        = (error_row eval_id "'questions'", w'))
  /\ (forall document e w',
        case_document c = Some document ->
        score_document document w = (Raises e, w') ->
        run_case world score_document eval_id c w
        = (error_row eval_id (exn_str e), w')).
Proof.
  unfold run_case, try_case.
  split; [|split; [|split]].
  - intros H. rewrite H. reflexivity.
  - intros document predicted w' Hd Hs He. rewrite Hd. cbn [subscript].
    rewrite Hs, He. reflexivity.
  - intros document predicted w' exp_sa Hd Hs He. rewrite Hd. cbn [subscript].
    rewrite Hs, He. reflexivity.
  - intros document e w' Hd Hs. rewrite Hd. cbn [subscript].
    rewrite Hs. reflexivity.
Qed.

(** The first entry without [id] ends the run with [KeyError('id')]: the
    cases before it have been run (their scoring calls made), their rows
    are lost, and no later case is started. *)
Theorem run_evals_stops_at_first_missing_id
    (world : Type)
    (score_document : string -> world -> outcome ScoringResult * world)
    (before after : list EvalCase) (c : EvalCase) (w : world) :
  Forall (fun c' => is_Some (case_id c')) before ->
  case_id c = None ->
  run_evals world score_document (before ++ c :: after) w
  = (Raises (KeyError "id"), (run_evals world score_document before w).2).
Proof.
  intros Hb Hc. rewrite run_evals_app_eq.
  destruct (run_evals_rows world score_document before w Hb)
    as (rows & w' & Hrun & _).
  rewrite Hrun. cbn [fst snd]. rewrite run_evals_cons, Hc. reflexivity.
Qed.

Lemma run_evals_stops_at_first_missing_id_witness :
  run_evals nat Sample.scorer
    ([mkEvalCase (Some "case-1") (Some "a.pdf") (Some Sample.expected)]
     ++ mkEvalCase None (Some "a.pdf") (Some Sample.expected)
     :: [mkEvalCase (Some "case-3") (Some "a.pdf") (Some Sample.expected)])
    0%nat
  = (Raises (KeyError "id"),
     (run_evals nat Sample.scorer
        [mkEvalCase (Some "case-1") (Some "a.pdf") (Some Sample.expected)]
        0%nat).2).
Proof.
  apply run_evals_stops_at_first_missing_id.
  - constructor; [eexists; reflexivity|constructor].
  - reflexivity.
Defined.

(** The row of a successful case has the eleven columns [eval_id],
    [extraction_acc], [section_detection], [<attr>_mae] and
    [<attr>_within_1], each holding the metric it is named after. *)
Theorem flatten_columns (eval_id : string) (m : EvalMetrics) :
  dom (flatten eval_id m)
  = {[ "eval_id"; "extraction_acc"; "section_detection";
       "clarity_mae"; "specificity_mae"; "bias_mae"; "actionability_mae";
       "clarity_within_1"; "specificity_within_1"; "bias_within_1";
       "actionability_within_1" ]}
  /\ flatten eval_id m !! "eval_id" = Some (CStr eval_id)
  /\ flatten eval_id m !! "extraction_acc"
     = Some (CFloat (extraction_accuracy m))
  /\ flatten eval_id m !! "section_detection"
     = Some (CFloat (section_detection m))
  /\ forall a : attribute,
       flatten eval_id m !! (attr_name a +:+ "_mae")
       = Some (CFloat (attr_get (score_mae m) a))
       /\ flatten eval_id m !! (attr_name a +:+ "_within_1")
          = Some (CFloat (attr_get (score_within_1 m) a)).
Proof.
  unfold flatten, attr_items, attributes. cbn [map fold_left attr_name].
  split.
  { rewrite !dom_insert_L, dom_empty_L. apply set_eq. intros k.
    rewrite !elem_of_union, !elem_of_singleton, elem_of_empty. tauto. }
  split; [repeat (rewrite lookup_insert_ne by discriminate);
          apply lookup_insert_eq|].
  split; [repeat (rewrite lookup_insert_ne by discriminate);
          apply lookup_insert_eq|].
  split; [repeat (rewrite lookup_insert_ne by discriminate);
          apply lookup_insert_eq|].
  intros []; cbn [attr_name attr_get]; split;
    repeat (rewrite lookup_insert_ne by discriminate);
    apply lookup_insert_eq.
Qed.

(** *** Runs without a successful case *)

Lemma check_pass_fail_error_rows (rows : list (gmap string cell)) :
  Forall (fun r => exists eval_id msg, r = error_row eval_id msg) rows ->
  Gate.check_pass_fail rows = true.
Proof.
  intros Hrows. unfold Gate.check_pass_fail, Gate.threshold_checks.
  apply GateFacts.check_loop_true. split; [reflexivity|].
  intros metric threshold actual Hin Hm. exfalso.
  rewrite GateFacts.aggregate_means_absent in Hm; [discriminate|].
  pose proof GateFacts.threshold_names as Hnames.
  rewrite Forall_forall in Hnames. destruct (Hnames _ Hin) as [H1 H2].
  eapply Forall_impl; [exact Hrows|].
  intros r (eval_id & msg & ->). apply GateFacts.error_row_lookup; assumption.
Qed.

Lemma run_loop_error_rows
    (world : Type)
    (score_document : string -> world -> outcome ScoringResult * world)
    (dataset : list EvalCase) (results rows : list (gmap string cell))
    (w w' : world) :
  (forall document w0, exists e, (score_document document w0).1 = Raises e) ->
  Forall (fun r => exists eval_id msg, r = error_row eval_id msg) results ->
  run_loop world score_document dataset results w = (Returns rows, w') ->
  Forall (fun r => exists eval_id msg, r = error_row eval_id msg) rows.
Proof.
  intros Hfail. revert results w.
  induction dataset as [|c cs IH]; intros results w Hres.
  - cbn. intros [= <- _]. exact Hres.
  - cbn [run_loop].
    destruct (case_id c) as [eval_id|]; cbn [subscript]; [|discriminate].
    destruct (run_case world score_document eval_id c w) as [row w1] eqn:E.
    apply IH. apply Forall_app. split; [exact Hres|].
    constructor; [|constructor].
    unfold run_case, try_case in E.
    destruct (case_document c) as [document|]; cbn [subscript] in E.
    + destruct (Hfail document w) as [e He].
      destruct (score_document document w) as [[r|e'] w2]; cbn in He;
        [discriminate|].
      cbn in E. injection E as <- _. eexists _, _. reflexivity.
    + injection E as <- _. eexists _, _. reflexivity.
Qed.

(** A run in which the scorer fails on every document passes the gate: the
    rows are all error rows, no metric has a mean, and every threshold is
    skipped.  The empty dataset passes the same way. *)
Theorem run_without_success_passes_gate
    (world : Type)
    (score_document : string -> world -> outcome ScoringResult * world)
    (dataset : list EvalCase) (w : world) :
  (forall document w0, exists e, (score_document document w0).1 = Raises e) ->
  Forall (fun c => is_Some (case_id c)) dataset ->
  exists rows w',
    run_evals world score_document dataset w = (Returns rows, w')
    /\ length rows = length dataset
    /\ Gate.aggregate_means rows = ∅
    /\ Gate.check_pass_fail rows = true.
Proof.
  intros Hfail Hids.
  destruct (run_evals_rows world score_document dataset w Hids)
    as (rows & w' & Hrun & Hlen & _).
  exists rows, w'. split; [exact Hrun|]. split; [exact Hlen|].
  assert (Hrows : Forall (fun r => exists eval_id msg, r = error_row eval_id msg)
                    rows).
  { eapply run_loop_error_rows; [exact Hfail| |exact Hrun]. constructor. }
  split; [|apply check_pass_fail_error_rows, Hrows].
  apply map_eq. intros col. rewrite lookup_empty, GateFacts.aggregate_means_lookup.
  unfold Gate.column_mean.
  destruct (Gate.is_numeric col rows) eqn:E; [|reflexivity]. exfalso.
  unfold Gate.is_numeric in E. apply andb_true_iff in E as [Hex Hall].
  apply existsb_exists in Hex as (r & Hr & Hs).
  rewrite forallb_forall in Hall. specialize (Hall r Hr).
  apply list_elem_of_In in Hr. rewrite Forall_forall in Hrows.
  destruct (Hrows r Hr) as (eval_id & msg & ->).
  apply bool_decide_eq_true in Hs as [v Hv]. rewrite Hv in Hall.
  unfold error_row in Hv.
  destruct (decide (col = "error")) as [->|Hne1].
  - rewrite lookup_insert_eq in Hv. injection Hv as <-. discriminate Hall.
  - rewrite lookup_insert_ne in Hv by congruence.
    destruct (decide (col = "eval_id")) as [->|Hne2].
    + rewrite lookup_insert_eq in Hv. injection Hv as <-. discriminate Hall.
    + rewrite lookup_insert_ne in Hv by congruence.
      rewrite lookup_empty in Hv. discriminate Hv.
Qed.

Lemma run_without_success_passes_gate_witness :
  exists rows w',
    run_evals nat Sample.failing_scorer Sample.dataset 0%nat = (Returns rows, w')
    /\ length rows = length Sample.dataset
    /\ Gate.check_pass_fail rows = true.
Proof.
  destruct (run_without_success_passes_gate nat Sample.failing_scorer
              Sample.dataset 0%nat)
    as (rows & w' & Hrun & Hlen & _ & Hpass).
  - intros document w0. eexists. reflexivity.
  - exact sample_dataset_has_ids.
  - exists rows, w'. split; [exact Hrun|]. split; [exact Hlen|exact Hpass].
Defined.

End RunnerMore.

(** ** More on the threshold gate *)

Module GateMore.
Import Gate GateFacts.

(** A column the threshold table does not name has no say in the verdict
    or the report: so for [section_detection] and for [extraction_acc],
    which the runner writes and the table lacks. *)
Theorem column_outside_table_is_never_checked
    (means : gmap string Q) (col : string) (v : Q) :
  col ∉ (THRESHOLDS.*1) ->
  threshold_checks (<[col := v]> means) = threshold_checks means
  /\ threshold_checks (delete col means) = threshold_checks means.
Proof.
  intros Hcol.
  assert (Hne : Forall (fun e : string * Q => e.1 <> col) THRESHOLDS).
  { apply Forall_forall. intros e He Heq. apply Hcol.
    apply list_elem_of_fmap. exists e. split; [symmetry; exact Heq|exact He]. }
  unfold threshold_checks. split; apply check_loop_ext.
  - eapply Forall_impl; [exact Hne|]. intros e He.
    apply lookup_insert_ne. congruence.
  - eapply Forall_impl; [exact Hne|]. intros e He.
    apply lookup_delete_ne. congruence.
Qed.

Lemma untabled_runner_columns :
  ("section_detection" ∉ THRESHOLDS.*1) /\ ("extraction_acc" ∉ THRESHOLDS.*1).
Proof.
  split; intros H; cbn in H;
    repeat (apply elem_of_cons in H as [H|H]; [discriminate H|]);
    inversion H.
Qed.

Lemma column_outside_table_is_never_checked_witness :
  threshold_checks (<["section_detection" := 0%Q]> Sample.boundary_means)
  = threshold_checks Sample.boundary_means
  /\ threshold_checks (<["extraction_acc" := 0%Q]> Sample.boundary_means)
     = threshold_checks Sample.boundary_means.
Proof.
  split.
  - exact (proj1 (column_outside_table_is_never_checked Sample.boundary_means
                    "section_detection" 0%Q (proj1 untabled_runner_columns))).
  - exact (proj1 (column_outside_table_is_never_checked Sample.boundary_means
                    "extraction_acc" 0%Q (proj2 untabled_runner_columns))).
Defined.

End GateMore.

(** ** More on the Python string model *)

Module PyStrMore.
Import PyStr PyStrSpec.

Lemma append_assoc (a b c : string) : (a +:+ b) +:+ c = a +:+ (b +:+ c).
Proof.
  induction a as [|x a IH]; [reflexivity|].
  change (String x ((a +:+ b) +:+ c) = String x (a +:+ (b +:+ c))).
  rewrite IH. reflexivity.
Qed.

Lemma append_nil_r (a : string) : a +:+ EmptyString = a.
Proof.
  induction a as [|x a IH]; [reflexivity|].
  change (String x (a +:+ EmptyString) = String x a).
  rewrite IH. reflexivity.
Qed.

Lemma split_lines_nonempty (s : string) : split_lines s <> [].
Proof.
  induction s as [|c r IH]; cbn [split_lines]; [discriminate|].
  destruct (Ascii.eqb c (ascii_of_nat 10)); [discriminate|].
  destruct (split_lines r); discriminate.
Qed.

Lemma concat_cons (sep x : string) (l : list string) :
  l <> [] -> String.concat sep (x :: l) = x +:+ sep +:+ String.concat sep l.
Proof. destruct l; [contradiction|reflexivity]. Qed.

Lemma concat_String (sep : string) (c : ascii) (h : string) (t : list string) :
  String.concat sep (String c h :: t) = String c (String.concat sep (h :: t)).
Proof. destruct t; reflexivity. Qed.

(** [split] and [join] on the same separator are inverse. *)
Lemma join_split_lines (s : string) : join nl (split_lines s) = s.
Proof.
  unfold join. induction s as [|c r IH]; [reflexivity|].
  cbn [split_lines].
  destruct (Ascii.eqb_spec c (ascii_of_nat 10)) as [->|Hc].
  - rewrite concat_cons by apply split_lines_nonempty. rewrite IH. reflexivity.
  - pose proof (split_lines_nonempty r) as Hne.
    destruct (split_lines r) as [|h t]; [contradiction|].
    rewrite concat_String, IH. reflexivity.
Qed.

Lemma split_lines_single (s : string) :
  no_newline s = true -> split_lines s = [s].
Proof.
  induction s as [|c r IH]; [reflexivity|].
  cbn [no_newline split_lines]. intros H. apply andb_true_iff in H as [Hc Hr].
  apply negb_true_iff in Hc. rewrite Hc, (IH Hr). reflexivity.
Qed.

(** The lines of [a], a newline, [b] are the lines of [a] and then the
    lines of [b]. *)
Lemma split_lines_app (a b : string) :
  split_lines (a +:+ nl +:+ b) = split_lines a ++ split_lines b.
Proof.
  induction a as [|c r IH]; [reflexivity|].
  change (split_lines (String c (r +:+ nl +:+ b))
          = split_lines (String c r) ++ split_lines b).
  cbn [split_lines]. rewrite IH.
  destruct (Ascii.eqb c (ascii_of_nat 10)); [reflexivity|].
  pose proof (split_lines_nonempty r) as Hne.
  destruct (split_lines r) as [|h t]; [contradiction|]. reflexivity.
Qed.

Lemma lstrip_all_space_app (l s : string) :
  all_space l = true -> lstrip (l +:+ s) = lstrip s.
Proof.
  induction l as [|c l IH]; [reflexivity|].
  change (all_space (String c l) = true ->
          lstrip (String c (l +:+ s)) = lstrip s).
  cbn [all_space lstrip]. intros H.
  apply andb_true_iff in H as [Hc Hl]. rewrite Hc. apply IH, Hl.
Qed.

Lemma lstrip_all_space (r : string) : all_space r = true -> lstrip r = EmptyString.
Proof.
  induction r as [|c r IH]; [reflexivity|].
  cbn [all_space lstrip]. intros H. apply andb_true_iff in H as [Hc Hr].
  rewrite Hc. apply IH, Hr.
Qed.

Lemma lstrip_fixed (s : string) :
  (forall c, first_char s = Some c -> isspace c = false) -> lstrip s = s.
Proof.
  destruct s as [|c r]; [reflexivity|]. intros H. cbn [lstrip].
  rewrite (H c eq_refl). reflexivity.
Qed.

Lemma rstrip_all_space (r : string) : all_space r = true -> rstrip r = EmptyString.
Proof.
  induction r as [|c r IH]; [reflexivity|].
  cbn [all_space rstrip]. intros H. apply andb_true_iff in H as [Hc Hr].
  rewrite (IH Hr), Hc. reflexivity.
Qed.

Lemma rstrip_app_all_space (s r : string) :
  all_space r = true -> rstrip (s +:+ r) = rstrip s.
Proof.
  intros Hr. induction s as [|c s IH].
  - apply rstrip_all_space, Hr.
  - change (rstrip (String c (s +:+ r)) = rstrip (String c s)).
    cbn [rstrip]. rewrite IH. reflexivity.
Qed.

Lemma rstrip_fixed (s : string) :
  (forall c, last_char s = Some c -> isspace c = false) -> rstrip s = s.
Proof.
  induction s as [|c s IH]; [reflexivity|].
  intros H. cbn [rstrip]. destruct s as [|d s'].
  - cbn. rewrite (H c eq_refl). reflexivity.
  - rewrite IH; [reflexivity|]. intros x Hx. apply H. exact Hx.
Qed.

Lemma last_char_app (a b : string) :
  b <> EmptyString -> last_char (a +:+ b) = last_char b.
Proof.
  intros Hb. induction a as [|c a IH]; [reflexivity|].
  change (last_char (String c (a +:+ b)) = last_char b).
  cbn [last_char]. rewrite IH.
  destruct (a +:+ b) eqn:E; [|reflexivity].
  destruct a, b; try discriminate; contradiction.
Qed.

(** [strip] undoes any white space put around a text that neither starts
    nor ends with white space. *)
Lemma strip_surrounded (l x r : string) :
  all_space l = true -> all_space r = true ->
  (forall c, first_char x = Some c -> isspace c = false) ->
  (forall c, last_char x = Some c -> isspace c = false) ->
  strip (l +:+ x +:+ r) = x.
Proof.
  intros Hl Hr Hfirst Hlast. unfold strip.
  rewrite lstrip_all_space_app by exact Hl.
  destruct x as [|c x'].
  - cbn [String.append]. rewrite lstrip_all_space by exact Hr. reflexivity.
  - rewrite lstrip_fixed by (cbn; intros d [= <-]; apply Hfirst; reflexivity).
    rewrite rstrip_app_all_space by exact Hr. apply rstrip_fixed, Hlast.
Qed.

(** A text starts with each of its prefixes. *)
Lemma startswith_app (p s : string) : startswith (p +:+ s) p = true.
Proof.
  induction p as [|a p IH]; [destruct s; reflexivity|].
  change (startswith (String a (p +:+ s)) (String a p) = true).
  cbn [startswith]. rewrite Ascii.eqb_refl, IH. reflexivity.
Qed.

End PyStrMore.

(** ** More on the scorer *)

Module ScorerMore.
Import Scorer ScorerSpec SectionSpec ScorerFacts PyStrSpec PyStrMore.

(** *** Markdown fences *)

Lemma fenced_lines (info body last : string) :
  no_newline info = true -> no_newline last = true ->
  PyStr.split_lines ("```" +:+ info +:+ nl +:+ body +:+ nl +:+ last)
  = ("```" +:+ info) :: PyStr.split_lines body ++ [last].
Proof.
  intros Hi Hl.
  replace ("```" +:+ info +:+ nl +:+ body +:+ nl +:+ last)
    with (("```" +:+ info) +:+ nl +:+ (body +:+ nl +:+ last))
    by (rewrite !append_assoc; reflexivity).
  rewrite !split_lines_app.
  rewrite (split_lines_single ("```" +:+ info)) by exact Hi.
  rewrite (split_lines_single last) by exact Hl. reflexivity.
Qed.

(** When the stripped reply starts with a fence and has more than two
    lines, its first and its last line are dropped, whatever the last
    line is: a closing fence, or the last data row of a reply that was cut
    short.  A reply without a leading fence, and a fenced reply of one or
    two lines, are only stripped. *)
Theorem strip_markdown_drops_first_and_last_line :
  (forall l r info body last : string,
      all_space l = true -> all_space r = true ->
      no_newline info = true -> no_newline last = true ->
      (forall c, last_char last = Some c -> PyStr.isspace c = false) ->
      last <> EmptyString ->
      strip_markdown (l +:+ ("```" +:+ info +:+ nl +:+ body +:+ nl +:+ last) +:+ r)
      = body)
  /\ (forall text : string,
        PyStr.startswith (PyStr.strip text) "```" = false ->
        strip_markdown text = PyStr.strip text)
  /\ (forall info last : string,
        no_newline info = true -> no_newline last = true ->
        (forall c, last_char last = Some c -> PyStr.isspace c = false) ->
        last <> EmptyString ->
        strip_markdown ("```" +:+ info +:+ nl +:+ last)
        = "```" +:+ info +:+ nl +:+ last).
Proof.
  split; [|split].
  - intros l r info body last Hl Hr Hi Hlast Hend Hne.
    unfold strip_markdown.
    rewrite strip_surrounded; [|exact Hl|exact Hr| |].
    + rewrite startswith_app.
      rewrite fenced_lines by assumption.
      cbn [tl]. rewrite length_cons, length_app. cbn [length].
      replace (2 <? S (length (PyStr.split_lines body) + 1))%nat with true
        by (symmetry; apply Nat.ltb_lt;
            pose proof (split_lines_nonempty body);
            destruct (PyStr.split_lines body); [contradiction|cbn [length]; lia]).
      rewrite removelast_last. apply join_split_lines.
    + intros c [= <-]. reflexivity.
    + replace ("```" +:+ info +:+ nl +:+ body +:+ nl +:+ last)
        with (("```" +:+ info +:+ nl +:+ body +:+ nl) +:+ last)
        by (rewrite !append_assoc; reflexivity).
      rewrite last_char_app by exact Hne. exact Hend.
  - intros text H. unfold strip_markdown. rewrite H. reflexivity.
  - intros info last Hi Hlast Hend Hne. unfold strip_markdown.
    assert (Hstrip : PyStr.strip ("```" +:+ info +:+ nl +:+ last)
                     = "```" +:+ info +:+ nl +:+ last).
    { pose proof (strip_surrounded EmptyString
                    ("```" +:+ info +:+ nl +:+ last) EmptyString) as H.
      rewrite append_nil_r in H. apply H; try reflexivity.
      - intros c [= <-]. reflexivity.
      - replace ("```" +:+ info +:+ nl +:+ last)
          with (("```" +:+ info +:+ nl) +:+ last)
          by (rewrite !append_assoc; reflexivity).
        rewrite last_char_app by exact Hne. exact Hend. }
    rewrite Hstrip.
    rewrite startswith_app.
    replace ("```" +:+ info +:+ nl +:+ last)
      with (("```" +:+ info) +:+ nl +:+ last) at 1
      by (rewrite !append_assoc; reflexivity).
    rewrite split_lines_app.
    rewrite (split_lines_single ("```" +:+ info)) by exact Hi.
    rewrite (split_lines_single last) by exact Hlast. reflexivity.
Qed.

(** A fenced reply, and the same reply cut short after its second row. *)
Example sample_fenced_replies :
  strip_markdown
    ("```csv" +:+ nl +:+ "Section,Clarity" +:+ nl +:+ "General,5" +:+ nl
     +:+ "```" +:+ nl)
  = "Section,Clarity" +:+ nl +:+ "General,5"
  /\ strip_markdown
       ("```csv" +:+ nl +:+ "Section,Clarity" +:+ nl +:+ "General,5" +:+ nl
        +:+ "Other,4")
     = "Section,Clarity" +:+ nl +:+ "General,5".
Proof. split; vm_compute; reflexivity. Qed.

(** *** The rows of a reply *)

Section rows.

Variable env : environment.







End rows.




(** A short row that lacks a text field only is no error: under a header
    that ends in [Question_Text], the question of a row without that field
    is stored with [None] as its text. *)
Example sample_missing_text :
  obind (_parse_csv_output SampleEnv.text_last_env "csv")
        (fun r => Returns (map question_text (questions r),
                           map clarity (questions r)))
  = Returns ([Some "What is your age?"; None], [5; 3]).
Proof. vm_compute. reflexivity. Qed.


(** *** Averages and score ranges *)

Lemma truediv_ge (a b k : Z) :
  0 < b -> k * b <= a -> (inject_Z k <= Metrics.truediv a b)%Q.
Proof.
  intros Hb H. unfold Metrics.truediv, Qdiv, Qle.
  destruct b as [|b|b]; try lia. simpl. nia.
Qed.

Lemma sum_Z_ge (l : list Z) (k : Z) :
  Forall (fun x => k <= x) l -> k * Z.of_nat (length l) <= Metrics.sum_Z l.
Proof.
  induction 1 as [|x l Hx _ IH]; [unfold Metrics.sum_Z; simpl; lia|].
  rewrite MetricsFacts.sum_Z_cons. cbn [length]. lia.
Qed.

(** Every section average lies between the smallest and the largest score
    the questions carry: within [1, 5] when the scores are.  The scores
    themselves are taken as [int] reads them; no range is enforced. *)
Theorem section_averages_within_score_range
    (env : environment) (csv_text : string) (r : ScoringResult_of field)
    (lo hi : Z) :
  _parse_csv_output env csv_text = Returns r ->
  Forall (QuestionRel.scores_within lo hi) (questions r) ->
  forall (s : field) (avg : attr_dict Q) (a : attribute),
    section_averages r !! s = Some avg ->
    (inject_Z lo <= attr_get avg a /\ attr_get avg a <= inject_Z hi)%Q.
Proof.
  intros Hparse Hall s avg a Hs.
  destruct (parse_csv_output_sections env csv_text r Hparse) as [_ Hmean].
  destruct (Hmean s avg a Hs) as [Hne ->].
  assert (Hsec : Forall (fun x => lo <= x <= hi)
                   (map (fun q => score q a)
                        (section_questions s (questions r)))).
  { apply Forall_forall. intros x Hx. apply list_elem_of_In, in_map_iff in Hx.
    destruct Hx as (q & <- & Hq). apply list_elem_of_In in Hq.
    unfold section_questions in Hq. apply list_elem_of_filter in Hq as [_ Hq].
    rewrite Forall_forall in Hall. apply (Hall q Hq a). }
  assert (Hpos : 0 < Z.of_nat (length (section_questions s (questions r)))).
  { destruct (section_questions s (questions r)); [contradiction|].
    cbn [length]. lia. }
  rewrite <- (length_map (fun q => score q a)) in Hpos |- *.
  split.
  - apply truediv_ge; [exact Hpos|]. apply sum_Z_ge.
    eapply Forall_impl; [exact Hsec|]. cbn. intros x Hx. lia.
  - apply MetricsMore.truediv_le; [exact Hpos|]. apply MetricsMore.sum_Z_le.
    eapply Forall_impl; [exact Hsec|]. cbn. intros x Hx. lia.
Qed.

Lemma sample_parse_scores :
  exists r,
    _parse_csv_output SampleEnv.env "csv" = Returns r
    /\ Forall (QuestionRel.scores_within 1 5) (questions r).
Proof.
  eexists. split; [vm_compute; reflexivity|].
  repeat (apply List.Forall_cons; [intros []; cbn; lia|]).
  apply List.Forall_nil.
Qed.

Lemma section_averages_within_score_range_witness :
  exists r,
    _parse_csv_output SampleEnv.env "csv" = Returns r
    /\ forall (s : field) (avg : attr_dict Q) (a : attribute),
         section_averages r !! s = Some avg ->
         (inject_Z 1 <= attr_get avg a /\ attr_get avg a <= inject_Z 5)%Q.
Proof.
  destruct sample_parse_scores as (r & Hr & Hscores).
  exists r. split; [exact Hr|].
  exact (section_averages_within_score_range SampleEnv.env "csv" r 1 5
           Hr Hscores).
Defined.

(** *** What [score_document] does to the world *)

(** One call of [score_document] logs the workflow span first, calls the
    scoring service at most once (exactly once when it returns), writes no
    file when [save_csv] is off, and with [save_csv] on has written the
    raw CSV by the time the parsing of that CSV fails. *)
Theorem score_document_effects
    (env : environment) (doc_path : string) (save_csv : bool)
    (tr : list event) :
  exists new : list event,
    (score_document env doc_path save_csv tr).2 = tr ++ new
    /\ head new = Some (EvWorkflowSpan doc_path)
    /\ (length (List.filter is_scoring_call new) <= 1)%nat
    /\ (forall r,
          (score_document env doc_path save_csv tr).1 = Returns r ->
          length (List.filter is_scoring_call new) = 1%nat
          /\ last new = Some (EvWorkflowSpan doc_path))
    /\ (save_csv = false -> forall name text, EvWriteCsv name text ∉ new)
    /\ (save_csv = true ->
        forall e,
          (score_document env doc_path save_csv tr).1 = Raises e ->
          row_error e \/ (exists msg, e = CsvError msg) ->
          exists text,
            EvWriteCsv ("scoring_results_" +:+ path_stem env doc_path +:+ ".csv")
                       (strip_markdown text) ∈ new).
Proof.
  unfold score_document, content_blocks_for, _extract_docx_text.
  destruct (String.eqb (PyStr.lower (path_suffix env doc_path)) ".docx");
    [destruct (docx_paragraphs env doc_path _) as [paragraphs|msg]
    |destruct (String.eqb (PyStr.lower (path_suffix env doc_path)) ".pdf");
     [destruct (read_base64 env doc_path _) as [doc_data|msg]|]];
    cbn [collaborate obind fst snd].
  all: try (destruct (messages_create env _ _) as [text|msg];
            cbn [collaborate fst snd];
            [destruct save_csv;
             [destruct (write_file env _ _ _) as [u|msg];
              cbn [collaborate fst snd]|];
             try (destruct (_parse_csv_output env (strip_markdown text))
                    as [result|e0] eqn:Eparse; cbn [fst snd])|]).
  all: eexists; split; [rewrite <- ?app_assoc; reflexivity|]; cbn [app].
  all: split; [reflexivity|].
  all: split; [cbn; lia|].
  all: split; [intros r Hr; first [discriminate Hr | split; reflexivity]|].
  all: split; [intros Hs name txt Hin;
               first [discriminate Hs | not_in_events Hin]|].
  all: intros Hs e He Hkind; first [discriminate Hs | idtac].
  all: try (injection He as <-).
  all: try (exfalso;
            first [eapply collaborator_error_not_parse_error, Hkind
                  |eapply unsupported_message_not_parse_error, Hkind]).
  all: try discriminate He.
  all: exists text; apply list_elem_of_In; cbn; tauto.
Qed.

(** *** The text of a DOCX file *)

Lemma docx_lines_acc (paragraphs : list (string * string)) (parts : list string) :
  fold_left (fun (parts : list string) '(para_text, style_name) =>
               let text := PyStr.strip para_text in
               if String.eqb text EmptyString then parts
               else if PyStr.startswith style_name "Heading"
                    then parts ++ [nl +:+ "## " +:+ text +:+ nl]
                    else parts ++ [text])
            paragraphs parts
  = parts ++ omap docx_line paragraphs.
Proof.
  revert parts. induction paragraphs as [|[para_text style_name] ps IH];
    intros parts.
  - cbn. rewrite app_nil_r. reflexivity.
  - cbn [fold_left omap list_omap]. rewrite IH. unfold docx_line at 2.
    cbn [fst snd].
    destruct (String.eqb (PyStr.strip para_text) EmptyString); [reflexivity|].
    destruct (PyStr.startswith style_name "Heading");
      rewrite <- app_assoc; reflexivity.
Qed.

(** The extracted text is the lines of the paragraphs joined by newlines:
    a heading becomes [## text] between two blank lines, any other
    paragraph its stripped text, and a paragraph of white space only
    leaves no line, whatever its style.  A file that cannot be read raises
    the reader's failure. *)
Theorem extract_docx_text_lines
    (env : environment) (doc_path : string) (tr : list event) :
  _extract_docx_text env doc_path tr
  = (match docx_paragraphs env doc_path tr with
     | Done paragraphs => Returns (PyStr.join nl (omap docx_line paragraphs))
     | Failed msg => Raises (CollaboratorError msg)
     end,
     tr ++ [EvReadDocx doc_path])
  /\ (forall (before after : list (string * string)) (blank style : string),
        all_space blank = true ->
        PyStr.join nl (omap docx_line (before ++ (blank, style) :: after))
        = PyStr.join nl (omap docx_line (before ++ after)))
  /\ (forall text style : string,
        PyStr.strip text <> EmptyString ->
        docx_line (text, style)
        = Some (if PyStr.startswith style "Heading"
                then nl +:+ "## " +:+ PyStr.strip text +:+ nl
                else PyStr.strip text)).
Proof.
  split; [|split].
  - unfold _extract_docx_text.
    destruct (docx_paragraphs env doc_path tr) as [paragraphs|msg];
      cbn [collaborate obind]; [|reflexivity].
    rewrite docx_lines_acc. reflexivity.
  - intros before after blank style Hb. f_equal.
    rewrite !omap_app. f_equal. cbn [omap list_omap].
    unfold docx_line at 1. cbn [fst snd]. unfold PyStr.strip.
    rewrite lstrip_all_space by exact Hb. reflexivity.
  - intros text style Hne. unfold docx_line. cbn [fst snd].
    apply String.eqb_neq in Hne. rewrite Hne.
    destruct (PyStr.startswith style "Heading"); reflexivity.
Qed.

Example sample_docx_text :
  (_extract_docx_text SampleEnv.env "survey.docx" []).1
  = Returns (nl +:+ "## Demographics" +:+ nl +:+ nl +:+ "What is your age?").
Proof. vm_compute. reflexivity. Qed.

End ScorerMore.

(** ** The command line of the harness *)

Module MainFacts.
Import Main.

(** The exit status is 0 only when the dataset was loaded, every entry had
    its [id], the results were written and the gate passed; a missing
    argument, an exception that escapes and a failing gate all end with
    status 1.  Without a dataset argument nothing is loaded or run. *)
Theorem main_exit_status
    (world : Type)
    (score_document : string -> world -> outcome ScoringResult * world)
    (load_harness : string -> world -> reply (list EvalCase) * world)
    (to_csv : list (gmap string cell) -> world -> reply unit * world)
    (argv : list string) (w : world) :
  ((length argv < 2)%nat ->
   main world score_document load_harness to_csv argv w = (Returns 1, w))
  /\ (exit_status (main world score_document load_harness to_csv argv w).1 = 0
      <->
      exists prog path rest dataset w1 rows w2 u w3,
        argv = prog :: path :: rest
        /\ load_harness path w = (Done dataset, w1)
        /\ Runner.run_evals world score_document dataset w1 = (Returns rows, w2)
        /\ to_csv rows w2 = (Done u, w3)
        /\ Gate.check_pass_fail rows = true)
  /\ (exit_status (main world score_document load_harness to_csv argv w).1 = 0
      \/ exit_status (main world score_document load_harness to_csv argv w).1
         = 1).
Proof.
  split; [|split].
  - intros Hlen. destruct argv as [|prog [|path rest]]; try reflexivity.
    cbn [length] in Hlen. lia.
  - unfold main. destruct argv as [|prog [|path rest]].
    + cbn. split; [discriminate|]. intros (? & ? & ? & ? & ? & ? & ? & ? & ? & H & _).
      discriminate H.
    + cbn. split; [discriminate|]. intros (? & ? & ? & ? & ? & ? & ? & ? & ? & H & _).
      discriminate H.
    + destruct (load_harness path w) as [[dataset|msg] w1] eqn:El;
        cbn [collaborate].
      * destruct (Runner.run_evals world score_document dataset w1)
          as [[rows|e] w2] eqn:Er.
        -- destruct (to_csv rows w2) as [[u|msg] w3] eqn:Es; cbn [collaborate].
           ++ destruct (Gate.check_pass_fail rows) eqn:Eg; cbn [fst exit_status].
              ** split; [|reflexivity]. intros _.
                 exists prog, path, rest, dataset, w1, rows, w2, u, w3.
                 repeat split; assumption.
              ** split; [discriminate|].
                 intros (? & ? & ? & ? & ? & ? & ? & ? & ? & Ha & Hl & Hr & Hs & Hg).
                 injection Ha as <- <- <-. rewrite El in Hl.
                 injection Hl as <- <-. rewrite Er in Hr.
                 injection Hr as <- <-. congruence.
           ++ cbn [fst exit_status]. split; [discriminate|].
              intros (? & ? & ? & ? & ? & ? & ? & ? & ? & Ha & Hl & Hr & Hs & Hg).
              injection Ha as <- <- <-. rewrite El in Hl.
              injection Hl as <- <-. rewrite Er in Hr.
              injection Hr as <- <-. rewrite Es in Hs. discriminate Hs.
        -- cbn [fst exit_status]. split; [discriminate|].
           intros (? & ? & ? & ? & ? & ? & ? & ? & ? & Ha & Hl & Hr & _).
           injection Ha as <- <- <-. rewrite El in Hl.
           injection Hl as <- <-. rewrite Er in Hr. discriminate Hr.
      * cbn [fst exit_status]. split; [discriminate|].
        intros (? & ? & ? & ? & ? & ? & ? & ? & ? & Ha & Hl & _).
        injection Ha as <- <- <-. rewrite El in Hl. discriminate Hl.
  - unfold main. destruct argv as [|prog [|path rest]]; [right; reflexivity..|].
    destruct (load_harness path w) as [[dataset|msg] w1]; cbn [collaborate];
      [|right; reflexivity].
    destruct (Runner.run_evals world score_document dataset w1)
      as [[rows|e] w2]; [|right; reflexivity].
    destruct (to_csv rows w2) as [[u|msg] w3]; cbn [collaborate];
      [|right; reflexivity].
    destruct (Gate.check_pass_fail rows); [left|right]; reflexivity.
Qed.

End MainFacts.
